(** * renderapi: the request engine, the pagination loop and the service
      resolver of [src/index.ts], with the earlier copy of the same client
      kept in [src/unnamed/part_001].

    Strings are modelled as Rocq strings, one character per byte: a JS string
    is taken by its UTF-8 bytes, which for the ASCII identifiers, tokens and
    parameter names of this client is also its sequence of UTF-16 code
    units. *)

From Stdlib Require Import String Ascii List Bool Arith Lia.
Import ListNotations.
Open Scope list_scope.
Open Scope string_scope.

(** ** JavaScript values and built-ins used by the client *)

Module Js.

(** Line feed, the [\n] of the template literals. *)
Definition nl : string := String (ascii_of_nat 10) EmptyString.

(** [s.startsWith(p)] *)
Definition startsWith (s p : string) : bool := String.prefix p s.

(** [s.slice(-n)]: from [max (len - n) 0] to the end. *)
Definition slice_last (n : nat) (s : string) : string :=
  let from := String.length s - n in
  String.substring from (String.length s - from) s.

(** [hay.includes(needle)] *)
Fixpoint includes (needle hay : string) : bool :=
  String.prefix needle hay
  || match hay with
     | EmptyString => false
     | String _ rest => includes needle rest
     end.

(** [arr.join(sep)] on an array of strings. *)
Definition join (sep : string) (arr : list string) : string :=
  String.concat sep arr.

(** The values a parameter bag holds:
    [string | string[] | undefined]. *)
Inductive Val : Type :=
| Undefined
| Str (s : string)
| Arr (elems : list string).

(** Truthiness, as tested by [!v] and [if (v)]. *)
Definition truthy (v : Val) : bool :=
  match v with
  | Undefined => false
  | Str s => negb (s =? "")
  | Arr _ => true
  end.

Definition isArray (v : Val) : bool :=
  match v with Arr _ => true | _ => false end.

Definition is_undefined (v : Val) : bool :=
  match v with Undefined => true | _ => false end.

(** [String(v)], the conversion [URLSearchParams] applies to a value. *)
Definition toString (v : Val) : string :=
  match v with
  | Undefined => "undefined"
  | Str s => s
  | Arr elems => join "," elems
  end.

(** A plain object with string keys: its own properties in enumeration
    order.  Parameter names are ordinary identifiers, so enumeration order
    is insertion order (keys that are array indices, which an engine
    enumerates first, do not occur among them). *)
Definition Obj : Type := list (string * Val).

Fixpoint has (o : Obj) (k : string) : bool :=
  match o with
  | [] => false
  | (k', _) :: rest => (k' =? k) || has rest k
  end.

(** [o[k]]: the value of the property, [undefined] when there is none. *)
Fixpoint get (o : Obj) (k : string) : Val :=
  match o with
  | [] => Undefined
  | (k', v) :: rest => if k' =? k then v else get rest k
  end.

(** [o[k] = v]: overwrite in place, or add the property at the end. *)
Fixpoint set (o : Obj) (k : string) (v : Val) : Obj :=
  match o with
  | [] => [(k, v)]
  | (k', v') :: rest =>
      if k' =? k then (k', v) :: rest else (k', v') :: set rest k v
  end.

(** [Object.entries(o)] *)
Definition entries (o : Obj) : list (string * Val) := o.

(** An object has each key once. *)
Fixpoint wf (o : Obj) : bool :=
  match o with
  | [] => true
  | (k, _) :: rest => negb (has rest k) && wf rest
  end.

(** What a call leaves behind: a value, an exception, or, for the model
    of the unbounded loop, a run that has not finished within the steps
    it was given. *)
Inductive Exn : Type :=
| Error (message : string)
| SyntaxError (pattern : string)
| TypeError.

Inductive Outcome (A : Type) : Type :=
| Returned (a : A)
| Threw (e : Exn)
| Running.

Arguments Returned {A} a.
Arguments Threw {A} e.
Arguments Running {A}.

End Js.

(** ** [URLSearchParams]: the list of name/value pairs and its
      [application/x-www-form-urlencoded] serialisation *)

Module URLSearchParams.

Definition t : Type := list (string * string).

(** [new URLSearchParams(record)]: one pair per own property, the value
    converted with [String]. *)
Definition of_record (o : Js.Obj) : t :=
  map (fun kv => (fst kv, Js.toString (snd kv))) (Js.entries o).

(** [sp.append(name, value)] *)
Definition append (sp : t) (name value : string) : t :=
  (sp ++ [(name, value)])%list.

Definition is_alnum (c : ascii) : bool :=
  let n := nat_of_ascii c in
  (((48 <=? n) && (n <=? 57)) || ((65 <=? n) && (n <=? 90))
   || ((97 <=? n) && (n <=? 122)))%nat.

(** Bytes the serialiser leaves as they are: alphanumerics and [*-._]. *)
Definition unreserved (c : ascii) : bool :=
  is_alnum c
  || (c =? "*")%char || (c =? "-")%char || (c =? ".")%char
  || (c =? "_")%char.

Definition hex_digit (n : nat) : ascii :=
  match n with
  | 0 => "0" | 1 => "1" | 2 => "2" | 3 => "3" | 4 => "4" | 5 => "5"
  | 6 => "6" | 7 => "7" | 8 => "8" | 9 => "9" | 10 => "A" | 11 => "B"
  | 12 => "C" | 13 => "D" | 14 => "E" | _ => "F"
  end%char.

Definition encode_byte (c : ascii) : string :=
  if unreserved c then String c EmptyString
  else if (c =? " ")%char then "+"
  else
    let n := nat_of_ascii c in
    String "%" (String (hex_digit (n / 16))
                  (String (hex_digit (n mod 16)) EmptyString)).

Fixpoint encode (s : string) : string :=
  match s with
  | EmptyString => EmptyString
  | String c rest => encode_byte c ++ encode rest
  end.

Definition encode_pair (p : string * string) : string :=
  encode (fst p) ++ "=" ++ encode (snd p).

(** [sp.toString()] *)
Definition toString (sp : t) : string :=
  String.concat "&" (map encode_pair sp).

(** The values recorded under a name, in order: [sp.getAll(name)]. *)
Definition getAll (sp : t) (name : string) : list string :=
  map snd (filter (fun p => fst p =? name) sp).

(** Whether some pair carries the name: [sp.has(name)]. *)
Definition has (sp : t) (name : string) : bool :=
  existsb (fun p => fst p =? name) sp.

(** Reading a query string back: the parser of the same format, used to
    speak of the parameters of a request from its URL text alone. *)
Definition hex_value (c : ascii) : option nat :=
  let n := nat_of_ascii c in
  if ((48 <=? n) && (n <=? 57))%nat then Some (n - 48)
  else if ((65 <=? n) && (n <=? 70))%nat then Some (n - 55)
  else if ((97 <=? n) && (n <=? 102))%nat then Some (n - 87)
  else None.

Fixpoint decode (s : string) : string :=
  match s with
  | EmptyString => EmptyString
  | String c rest =>
      if (c =? "+")%char then String " " (decode rest)
      else if (c =? "%")%char then
        match rest with
        | String h (String l rest') =>
            match hex_value h, hex_value l with
            | Some a, Some b =>
                String (ascii_of_nat (16 * a + b)) (decode rest')
            | _, _ => String c (decode rest)
            end
        | _ => String c (decode rest)
        end
      else String c (decode rest)
  end.

(** Split at every occurrence of a separator byte. *)
Fixpoint split (sep : ascii) (s : string) : list string :=
  match s with
  | EmptyString => [EmptyString]
  | String c rest =>
      if (c =? sep)%char then EmptyString :: split sep rest
      else
        match split sep rest with
        | [] => [String c EmptyString]
        | hd :: tl => String c hd :: tl
        end
  end.

(** Split a [name=value] sequence at its first [=]. *)
Fixpoint split_pair (s : string) : string * string :=
  match s with
  | EmptyString => (EmptyString, EmptyString)
  | String c rest =>
      if (c =? "=")%char then (EmptyString, rest)
      else let p := split_pair rest in (String c (fst p), snd p)
  end.

Definition parse (s : string) : t :=
  map (fun seq => let p := split_pair seq in (decode (fst p), decode (snd p)))
      (filter (fun seq => negb (seq =? "")) (split "&" s)).

End URLSearchParams.

(** ** [fetch]: requests and responses *)

Module Http.

Record Request : Type := mkRequest {
  req_method : string;
  req_url : string;
  req_headers : list (string * string);
  (** The object handed to [JSON.stringify] for the body, when there is
      one. *)
  req_body : option Js.Obj
}.

(** A response as the client reads it: [res.ok], [res.statusText],
    [await res.text()] and [await res.json()], the last at the type the
    caller asserts for it (this layer validates no shape). *)
Record Response (T : Type) : Type := mkResponse {
  ok : bool;
  statusText : string;
  text : string;
  json : T
}.

Arguments mkResponse {T} _ _ _ _.
Arguments ok {T} _.
Arguments statusText {T} _.
Arguments text {T} _.
Arguments json {T} _.

(** What a call did: its outcome, the requests it sent in order, and the
    caller's parameter object as the call left it (the object is passed by
    reference). *)
Record Ran (A : Type) : Type := mkRan {
  outcome : Js.Outcome A;
  sent : list Request;
  bag : Js.Obj
}.

Arguments mkRan {A} _ _ _.
Arguments outcome {A} _.
Arguments sent {A} _.
Arguments bag {A} _.

End Http.

(** Paged endpoints return elements that carry a [cursor] next to their
    payload ([ServiceCursor], [EnvVarCursor], [JobCursor], ...). *)
Class Cursored (T : Type) : Type := cursor : T -> string.

(** ** [src/index.ts] *)

Module Index.
Import Js Http.

Definition RENDER_API : string := "https://api.render.com/v1".

(** [new Headers()], [Content-Type] always, [Authorization] when the token
    is truthy. *)
Definition make_headers (token : string) : list (string * string) :=
  ("Content-Type", "application/json")
    :: (if negb (token =? "") then [("Authorization", "Bearer " ++ token)]
        else []).

(** [if (!params.limit) { params.limit = "100"; }], on the caller's
    object. *)
Definition default_limit (params : Obj) : Obj :=
  if negb (truthy (get params "limit")) then set params "limit" (Str "100")
  else params.

(** [.reduce((obj, [key, value]) => { obj[key] = value; return obj; }, {})] *)
Definition reduce_entries (es : list (string * Val)) : Obj :=
  fold_left (fun obj kv => set obj (fst kv) (snd kv)) es [].

(** The filter of [renderGetPaged]: [value !== undefined]. *)
Definition keep_paged (kv : string * Val) : bool :=
  negb (is_undefined (snd kv)).

(** The filter of [renderGet]:
    [value !== undefined && !(Array.isArray(value) && value.length === 0)]. *)
Definition keep_get (kv : string * Val) : bool :=
  negb (is_undefined (snd kv))
  && negb (isArray (snd kv)
           && match snd kv with
              | Arr elems => (List.length elems =? 0)%nat
              | _ => false
              end).

(** The message of the error thrown on a response that is not [ok]; the
    three functions differ in its first words only. *)
Definition request_error (what statusText url token errorBody : string)
  : string :=
  what ++ statusText ++ nl ++ "url: " ++ url ++ nl
    ++ "api key: *****" ++ slice_last 6 token ++ nl ++ errorBody.

Definition paged_url (method : string) (filteredParams : Obj) : string :=
  RENDER_API ++ "/" ++ method ++ "?"
    ++ URLSearchParams.toString (URLSearchParams.of_record filteredParams).

Section Paged.
Context {T : Type} `{Cursored T}.

(** The server as the loop meets it: the response to the [n]-th request
    of the call (from 0), which may depend on the request. *)
Variable fetch : nat -> Request -> Response (list T).
Variables token method : string.

(** One turn of the [while (true)] body. *)
Inductive Turn : Type :=
| Break (objects : list T)
| Continue (filteredParams : Obj) (objects : list T)
| Raise (e : Exn).

Definition paged_request (filteredParams : Obj) : Request :=
  mkRequest "GET" (paged_url method filteredParams) (make_headers token)
            None.

Definition paged_turn (n : nat) (filteredParams : Obj) (objects : list T)
  : Turn :=
  let url := paged_url method filteredParams in
  let res := fetch n (paged_request filteredParams) in
  if negb (ok res) then
    let errorBody := text res in
    Raise (Error (request_error "Unable to fetch data from render "
                                (statusText res) url token errorBody))
  else
    let resultObjects := json res in
    if (List.length resultObjects =? 0)%nat then Break objects
    else
      match nth_error resultObjects (List.length resultObjects - 1) with
      | Some last_object =>
          Continue (set filteredParams "cursor" (Str (cursor last_object)))
                   (objects ++ resultObjects)%list
      | None => Raise TypeError
      end.

(** The loop, given [steps] turns to run; [n] counts the requests sent so
    far. *)
Fixpoint paged_loop (steps n : nat) (filteredParams : Obj)
         (objects : list T) : Outcome (list T) * list Request :=
  match steps with
  | 0 => (Running, [])
  | S steps' =>
      let req := paged_request filteredParams in
      match paged_turn n filteredParams objects with
      | Break objects' => (Returned objects', [req])
      | Raise e => (Threw e, [req])
      | Continue filteredParams' objects' =>
          let r := paged_loop steps' (S n) filteredParams' objects' in
          (fst r, req :: snd r)
      end
  end.

Definition renderGetPaged (steps : nat) (params : Obj) : Ran (list T) :=
  let params := default_limit params in
  let filteredParams :=
    reduce_entries (filter keep_paged (entries params)) in
  let r := paged_loop steps 0 filteredParams [] in
  mkRan (fst r) (snd r) params.

End Paged.

(** The [forEach] that fills [searchParams] in [renderGet]. *)
Definition fill_searchParams (filteredParams : Obj) : URLSearchParams.t :=
  fold_left
    (fun searchParams kv =>
       match snd kv with
       | Arr elems =>
           URLSearchParams.append searchParams (fst kv) (join "," elems)
       | value =>
           URLSearchParams.append searchParams (fst kv) (toString value)
       end)
    (entries filteredParams) [].

Definition get_searchParams (params : Obj) : URLSearchParams.t :=
  fill_searchParams
    (reduce_entries (filter keep_get (entries (default_limit params)))).

Definition get_url (method : string) (params : Obj) : string :=
  RENDER_API ++ "/" ++ method ++ "?"
    ++ URLSearchParams.toString (get_searchParams params).

Definition renderGet {T : Type} (fetch : Request -> Response T)
           (token method : string) (params : Obj) : Ran T :=
  let headers := make_headers token in
  let url := get_url method params in
  let req := mkRequest "GET" url headers None in
  let res := fetch req in
  mkRan
    (if negb (ok res) then
       let errorBody := text res in
       Threw (Error (request_error "Unable to fetch data from render "
                                   (statusText res) url token errorBody))
     else Returned (json res))
    [req] (default_limit params).

Definition renderPost {T : Type} (fetch : Request -> Response T)
           (token method : string) (body : Obj) : Ran T :=
  let headers := make_headers token in
  let url := RENDER_API ++ "/" ++ method in
  let req := mkRequest "POST" url headers (Some body) in
  let res := fetch req in
  mkRan
    (if negb (ok res) then
       let errorBody := text res in
       Threw (Error (request_error "Unable to fetch post data from render "
                                   (statusText res) url token errorBody))
     else Returned (json res))
    [req] body.

(** *** Identifier predicates *)

Definition isServiceID (s : string) : bool := startsWith s "srv-".
Definition isEnvironmentID (s : string) : bool := startsWith s "evm-".
Definition isCronID (s : string) : bool := startsWith s "crn-".
Definition isJobID (s : string) : bool := startsWith s "job-".
Definition isRedisID (s : string) : bool := startsWith s "red-".
Definition isPostgresID (s : string) : bool := startsWith s "dpg-".
Definition isEnvironmentGroupID (s : string) : bool := startsWith s "evg-".
Definition isRegistryCredentialID (s : string) : bool :=
  startsWith s "rgc-".

(** The eight predicates, in the order of the source. *)
Definition classifiers : list (string -> bool) :=
  [isServiceID; isEnvironmentID; isCronID; isJobID; isRedisID;
   isPostgresID; isEnvironmentGroupID; isRegistryCredentialID].

(** *** Services *)

Inductive ServiceType : Type :=
| background_worker | cron_job | private_service | static_site
| web_service.

(** The fields of [Service] the resolver reads, [id] and [name], with a
    few of the others. *)
Record Service : Type := mkService {
  id : string;
  name : string;
  ownerId : string;
  slug : string;
  type : ServiceType
}.

Record ServiceCursor : Type := mkServiceCursor {
  sc_cursor : string;
  service : Service
}.

#[global] Instance ServiceCursor_cursored : Cursored ServiceCursor :=
  sc_cursor.

Section Resolver.
(** [name.match(pattern)] with a string pattern compiles it with
    [new RegExp(pattern)], which throws a [SyntaxError] on an invalid
    pattern ([None]), and otherwise searches the name for it. *)
Variable regexp : string -> option (string -> bool).
Variable fetch_service : Request -> Response Service.
Variable fetch_services : nat -> Request -> Response (list ServiceCursor).

Definition getService (token serviceID : string) : Ran Service :=
  renderGet fetch_service token ("/services/" ++ serviceID) [].

(** [services.filter((s) => s.name.match(nameFilter))] *)
Definition filter_by_name (nameFilter : string) (services : list Service)
  : Outcome (list Service) :=
  match services with
  | [] => Returned []
  | _ :: _ =>
      match regexp nameFilter with
      | None => Threw (SyntaxError nameFilter)
      | Some test => Returned (filter (fun s => test (name s)) services)
      end
  end.

Definition getServices (steps : nat) (token nameFilter : string)
  : Ran (list Service) :=
  let r := renderGetPaged fetch_services token "services" steps [] in
  match outcome r with
  | Returned serviceObjs =>
      let services := map service serviceObjs in
      mkRan (if negb (nameFilter =? "")
             then filter_by_name nameFilter services
             else Returned services)
            (sent r) (bag r)
  | Threw e => mkRan (Threw e) (sent r) (bag r)
  | Running => mkRan Running (sent r) (bag r)
  end.

Definition not_found_message (serviceIDOrName : string) : string :=
  "No services found with ID or name " ++ serviceIDOrName.

Definition too_many_message (serviceIDOrName : string)
           (services : list Service) : string :=
  "Too many services found with " ++ serviceIDOrName ++ ":" ++ nl
    ++ join ("  " ++ nl)
         (map (fun s => name s ++ " (" ++ id s ++ ")") services).

Definition determineService (steps : nat) (apiKey serviceIDOrName : string)
  : Ran Service :=
  if isServiceID serviceIDOrName then getService apiKey serviceIDOrName
  else
    let r := getServices steps apiKey serviceIDOrName in
    match outcome r with
    | Returned services =>
        match services with
        | [] =>
            (* services.length === 0 *)
            mkRan (Threw (Error (not_found_message serviceIDOrName)))
                  (sent r) (bag r)
        | [only] =>
            (* services.length === 1: return services[0] *)
            mkRan (Returned only) (sent r) (bag r)
        | _ :: _ :: _ =>
            (* services.length !== 1 *)
            match find (fun s => name s =? serviceIDOrName) services with
            | Some exactMatch =>
                mkRan (Returned exactMatch) (sent r) (bag r)
            | None =>
                mkRan (Threw (Error (too_many_message serviceIDOrName
                                                      services)))
                      (sent r) (bag r)
            end
        end
    | Threw e => mkRan (Threw e) (sent r) (bag r)
    | Running => mkRan Running (sent r) (bag r)
    end.

End Resolver.

End Index.

(** ** [src/index.ts]: the endpoint wrappers *)

Module Endpoints.
Import Js Http.

(** What follows an [await]: the rest of the function runs on the value
    returned; an exception, or a call that is still running, is passed
    on. *)
Definition andThen {A B : Type} (r : Ran A) (k : A -> Outcome B) : Ran B :=
  mkRan match outcome r with
        | Returned a => k a
        | Threw e => Threw e
        | Running => Running
        end
        (sent r) (bag r).

(** [xs.filter((x) => x.name.match(pattern))], for the name field
    [name_of]; the pattern is compiled when the first element is tested. *)
Definition filter_matching {A : Type}
           (regexp : string -> option (string -> bool))
           (name_of : A -> string) (pattern : string) (xs : list A)
  : Outcome (list A) :=
  match xs with
  | [] => Returned []
  | _ :: _ =>
      match regexp pattern with
      | None => Threw (SyntaxError pattern)
      | Some test => Returned (filter (fun x => test (name_of x)) xs)
      end
  end.

Record EnvVar : Type := mkEnvVar {
  key : string;
  value : string
}.

Record EnvVarCursor : Type := mkEnvVarCursor {
  ev_cursor : string;
  envVar : EnvVar
}.

#[global] Instance EnvVarCursor_cursored : Cursored EnvVarCursor := ev_cursor.

Definition getEnvVarsForService
           (fetch : nat -> Request -> Response (list EnvVarCursor))
           (steps : nat) (token serviceId : string) : Ran (list EnvVar) :=
  andThen
    (Index.renderGetPaged fetch token
       ("services/" ++ serviceId ++ "/env-vars") steps [])
    (fun objs => Returned (map envVar objs)).

Inductive JobStatus : Type := failed | pending | running | succeeded.

Record Job : Type := mkJob {
  job_createdAt : string;
  finishedAt : string;
  job_id : string;
  planId : string;
  serviceId : string;
  startCommand : string;
  startedAt : string;
  status : JobStatus
}.

Record JobCursor : Type := mkJobCursor {
  job_cursor : string;
  job : Job
}.

#[global] Instance JobCursor_cursored : Cursored JobCursor := job_cursor.

Definition listJobs (fetch : nat -> Request -> Response (list JobCursor))
           (steps : nat) (token itemId : string) : Ran (list Job) :=
  andThen
    (Index.renderGetPaged fetch token ("services/" ++ itemId ++ "/jobs")
                          steps [])
    (fun objs => Returned (map job objs)).

(** The fields of [EnvGroup] read here, [id] and [name], with the owner. *)
Record EnvGroup : Type := mkEnvGroup {
  eg_id : string;
  eg_name : string;
  eg_ownerId : string
}.

Record EnvGroupCursor : Type := mkEnvGroupCursor {
  eg_cursor : string;
  envGroup : EnvGroup
}.

#[global] Instance EnvGroupCursor_cursored : Cursored EnvGroupCursor :=
  eg_cursor.

(** [EnvGroupDetails extends EnvGroup] *)
Record EnvGroupDetails : Type := mkEnvGroupDetails {
  group : EnvGroup;
  envVars : list EnvVar;
  secretFiles : list (string * string)
}.

Record RegistryCredential : Type := mkRegistryCredential {
  rc_id : string;
  rc_name : string;
  registry : string;
  rc_updatedAt : string;
  username : string
}.

Section Named.
Variable regexp : string -> option (string -> bool).

Definition getEnvGroups
           (fetch : nat -> Request -> Response (list EnvGroupCursor))
           (steps : nat) (token nameFilter : string) : Ran (list EnvGroup) :=
  andThen
    (Index.renderGetPaged fetch token "env-groups" steps [])
    (fun objs =>
       let envGroups := map envGroup objs in
       if negb (nameFilter =? "")
       then filter_matching regexp eg_name nameFilter envGroups
       else Returned envGroups).

Definition getEnvGroup (fetch : Request -> Response EnvGroupDetails)
           (token envGroupID : string) : Ran EnvGroupDetails :=
  Index.renderGet fetch token ("env-groups/" ++ envGroupID) [].

Definition getRegistryCredentials
           (fetch : Request -> Response (list RegistryCredential))
           (token filter : string) : Ran (list RegistryCredential) :=
  andThen
    (Index.renderGet fetch token "registrycredentials" [])
    (fun credentials =>
       if negb (filter =? "")
       then filter_matching regexp rc_name filter credentials
       else Returned credentials).

End Named.

(** *** Metrics *)

(** An optional string argument as a property value. *)
Definition optional (v : option string) : Val :=
  match v with Some s => Str s | None => Undefined end.

(** An optional array argument as a property value. *)
Definition optional_array (v : option (list string)) : Val :=
  match v with Some elems => Arr elems | None => Undefined end.

Inductive AggregateBy : Type := statusCode | host.

Definition AggregateBy_text (a : AggregateBy) : string :=
  match a with statusCode => "statusCode" | host => "host" end.

Section Metrics.
(** JavaScript numbers and [n.toString()]. *)
Variable Number : Type.
Variable Number_toString : Number -> string.

Record MetricResponse : Type := mkMetricResponse {
  labels : list (string * string);
  values : list (string * Number);
  unit_ : string
}.

Variable fetch : Request -> Response (list MetricResponse).

(** [resolutionSeconds?.toString()] *)
Definition resolution (resolutionSeconds : option Number) : Val :=
  optional (option_map Number_toString resolutionSeconds).

Definition instanceCount (token : string) (resources : list string)
           (startTime endTime : option string)
           (resolutionSeconds : option Number) :=
  Index.renderGet fetch token "metrics/instance-count"
    [("endTime", optional endTime);
     ("resolutionSeconds", resolution resolutionSeconds);
     ("resource", Arr resources);
     ("startTime", optional startTime)].

Definition cpuUsage (token : string) (resources : list string)
           (startTime endTime : option string)
           (resolutionSeconds : option Number)
           (instances : option (list string))
           (aggregationMethod : option string) :=
  Index.renderGet fetch token "metrics/cpu"
    [("aggregationMethod", optional aggregationMethod);
     ("endTime", optional endTime);
     ("instance", optional_array instances);
     ("resolutionSeconds", resolution resolutionSeconds);
     ("resource", Arr resources);
     ("startTime", optional startTime)].

Definition memoryUsage (token : string) (resources : list string)
           (startTime endTime : option string)
           (resolutionSeconds : option Number)
           (instances : option (list string)) :=
  Index.renderGet fetch token "metrics/memory"
    [("endTime", optional endTime);
     ("resolutionSeconds", resolution resolutionSeconds);
     ("resource", Arr resources);
     ("startTime", optional startTime);
     ("instance", optional_array instances)].

(** [resources.filter((id) => isRedisID(id) || isPostgresID(id))] *)
Definition validResources (resources : list string) : list string :=
  filter (fun id => Index.isRedisID id || Index.isPostgresID id) resources.

(** [resources.filter((id) => !isRedisID(id) && !isPostgresID(id))], which
    only goes to the debug log. *)
Definition skippedResources (resources : list string) : list string :=
  filter (fun id => negb (Index.isRedisID id) && negb (Index.isPostgresID id))
         resources.

Definition activeConnections (token : string) (resources : list string)
           (startTime endTime : option string)
           (resolutionSeconds : option Number) :=
  Index.renderGet fetch token "metrics/active-connections"
    [("endTime", optional endTime);
     ("resolutionSeconds", resolution resolutionSeconds);
     ("resource", Arr (validResources resources));
     ("startTime", optional startTime)].

Definition bandwidth (token : string) (resources : list string)
           (startTime endTime : option string) :=
  Index.renderGet fetch token "metrics/bandwidth"
    [("endTime", optional endTime);
     ("resource", Arr resources);
     ("startTime", optional startTime)].

Definition HTTPLatency (token : string) (resources : list string)
           (quantile : string) (hosts : option (list string))
           (startTime endTime : option string)
           (paths : option (list string))
           (resolutionSeconds : option Number) :=
  Index.renderGet fetch token "metrics/http-latency"
    [("endTime", optional endTime);
     ("host", optional_array hosts);
     ("path", optional_array paths);
     ("quantile", Str quantile);
     ("resolutionSeconds", resolution resolutionSeconds);
     ("resource", Arr resources);
     ("startTime", optional startTime)].

Definition HTTPRequests (token : string) (resources : list string)
           (hosts : option (list string))
           (startTime endTime : option string)
           (paths : option (list string))
           (resolutionSeconds : option Number)
           (aggregateBy : option AggregateBy) :=
  Index.renderGet fetch token "metrics/http-requests"
    [("aggregateBy", optional (option_map AggregateBy_text aggregateBy));
     ("endTime", optional endTime);
     ("host", optional_array hosts);
     ("path", optional_array paths);
     ("resolutionSeconds", resolution resolutionSeconds);
     ("resource", Arr resources);
     ("startTime", optional startTime)].

End Metrics.

End Endpoints.

(** ** [src/unnamed/part_001]: the earlier copy of the client

    Its request engine and resolver read as those of [src/index.ts]; it
    differs in the text of the request error and in two identifier
    predicates. *)

Module Part001.
Import Js Http.

(** The message of the request error: the status text, then
    [process.env.RENDER_API_KEY] as the template literal prints it, then
    the body. *)
Definition request_error (statusText : string) (env_RENDER_API_KEY : Val)
           (errorBody : string) : string :=
  "Unable to fetch data from render " ++ statusText ++ " "
    ++ toString env_RENDER_API_KEY ++ ":" ++ nl ++ errorBody.

Definition renderGet {T : Type} (env_RENDER_API_KEY : Val)
           (fetch : Request -> Response T)
           (token method : string) (params : Obj) : Ran T :=
  let headers := Index.make_headers token in
  let url := Index.get_url method params in
  let req := mkRequest "GET" url headers None in
  let res := fetch req in
  mkRan
    (if negb (ok res) then
       let errorBody := text res in
       Threw (Error (request_error (statusText res) env_RENDER_API_KEY
                                   errorBody))
     else Returned (json res))
    [req] (Index.default_limit params).

Definition isServiceID (s : string) : bool := startsWith s "srv-".
Definition isEnvironmentID (s : string) : bool := startsWith s "evm-".
Definition isCronID (s : string) : bool := startsWith s "crn-".
Definition isJobID (s : string) : bool := startsWith s "job-".
Definition isRedisID (s : string) : bool := startsWith s "job-".
Definition isPostgresID (s : string) : bool := startsWith s "job-".
Definition isEnvironmentGroupID (s : string) : bool := startsWith s "evg-".
Definition isRegistryCredentialID (s : string) : bool :=
  startsWith s "rgc-".

Definition classifiers : list (string -> bool) :=
  [isServiceID; isEnvironmentID; isCronID; isJobID; isRedisID;
   isPostgresID; isEnvironmentGroupID; isRegistryCredentialID].

(** The template literal types declared next to the two predicates:
    [type RedisID = `red-${string}`] and
    [type PostgresID = `dpg-${string}`]. *)
Definition RedisID (s : string) : bool := startsWith s "red-".
Definition PostgresID (s : string) : bool := startsWith s "dpg-".

End Part001.

(** ** Notions the statements use *)

(** The known identifier prefixes. *)
Definition known_prefixes : list string :=
  ["srv"; "evm"; "crn"; "job"; "red"; "dpg"; "evg"; "rgc"].

(** How many of a list of predicates accept a string. *)
Definition accepting (ps : list (string -> bool)) (s : string) : nat :=
  List.length (filter (fun p => p s) ps).

(** A pattern without metacharacters matches the names that contain it. *)
Definition literal_regexp (pattern : string) : option (string -> bool) :=
  Some (fun subject => Js.includes pattern subject).

(** A scripted server: the [n]-th request is answered by the [n]-th page of
    the script, and by an empty page once the script is used up. *)
Definition scripted {T : Type} (pages : list (list T))
  : nat -> Http.Request -> Http.Response (list T) :=
  fun n _ => Http.mkResponse true "OK" "" (nth n pages []).

(** A service named [n] in the envelope of a page, with cursor [c]. *)
Definition enveloped (c n : string) : Index.ServiceCursor :=
  Index.mkServiceCursor
    c (Index.mkService ("srv-" ++ c) n "usr-1" n Index.web_service).

(** The responses a run received: the [n]-th request of the call and those
    after it, each with the answer of the server. *)
Fixpoint responses {T : Type}
         (fetch : nat -> Http.Request -> Http.Response (list T))
         (n : nat) (log : list Http.Request) : list (Http.Response (list T)) :=
  match log with
  | [] => []
  | req :: log' => fetch n req :: responses fetch (S n) log'
  end.

(** The pages of a script up to its first empty page, which is where the
    loop stops reading. *)
Fixpoint pages_before_empty {T : Type} (pages : list (list T))
  : list (list T) :=
  match pages with
  | [] => []
  | [] :: _ => []
  | page :: rest => page :: pages_before_empty rest
  end.


(** The parameter an optional string argument gives, if it is given. *)
Definition given (k : string) (v : option string) : URLSearchParams.t :=
  match v with Some s => [(k, s)] | None => [] end.

(** The parameter an optional array argument gives, if it is given and not
    empty. *)
Definition given_list (k : string) (v : option (list string))
  : URLSearchParams.t :=
  match v with
  | Some (x :: elems) => [(k, Js.join "," (x :: elems))]
  | _ => []
  end.

(** The URL of a metrics request with the given parameters, the limit
    last. *)
Definition metric_url (name : string) (sp : URLSearchParams.t) : string :=
  Index.RENDER_API ++ "/" ++ "metrics/" ++ name ++ "?"
    ++ URLSearchParams.toString (sp ++ [("limit", "100")])%list.

(** A matcher for the examples: a pattern with an opening parenthesis is
    taken as an unterminated group, which [new RegExp] rejects; any other
    is matched as a literal. *)
Definition literal_or_invalid (pattern : string)
  : option (string -> bool) :=
  if Js.includes "(" pattern then None else literal_regexp pattern.

(** A server on which every listing fails. *)
Definition unauthorized {T : Type}
  : nat -> Http.Request -> Http.Response (list T) :=
  fun _ _ => Http.mkResponse false "Unauthorized" "invalid api key" [].

(** The pieces of the request error of [src/index.ts] between its
    separating spaces and line feeds, for a first phrase [w]. *)
Definition report_parts (w st url token body : string) : list string :=
  [w; st; "url:"; url; "api"; "key:"; "*****" ++ Js.slice_last 6 token; body].

(** [needle] occurs in [hay]. *)
Definition Contains (needle hay : string) : Prop :=
  exists pre post, hay = pre ++ needle ++ post.

(** The character does not occur in the string. *)
Fixpoint free_of (c : ascii) (s : string) : bool :=
  match s with
  | EmptyString => true
  | String c' rest => negb (c' =? c)%char && free_of c rest
  end.

(** ** Strings: concatenation, prefixes and occurrences *)

Lemma append_nil_r (s : string) : s ++ "" = s.
Proof. induction s as [|c s IH]; simpl; [reflexivity | now rewrite IH]. Qed.

Lemma append_assoc (a b c : string) : (a ++ b) ++ c = a ++ (b ++ c).
Proof. induction a as [|x a IH]; simpl; [reflexivity | now rewrite IH]. Qed.

Lemma prefix_nil (s : string) : String.prefix "" s = true.
Proof. destruct s; reflexivity. Qed.

Lemma prefix_append (p s : string) : String.prefix p (p ++ s) = true.
Proof.
  induction p as [|c p IH]; simpl.
  - apply prefix_nil.
  - destruct (ascii_dec c c) as [_|ne]; [exact IH | now elim ne].
Qed.

Lemma prefix_split (p s : string) :
  String.prefix p s = true -> exists r, s = p ++ r.
Proof.
  revert p; induction s as [|c s IH]; intros p Hp.
  - destruct p; [now exists "" | discriminate].
  - destruct p as [|d p]; [now exists (String c s)|].
    simpl in Hp. destruct (ascii_dec d c) as [->|]; [|discriminate].
    destruct (IH _ Hp) as [r ->]. now exists r.
Qed.

Lemma Contains_refl (s : string) : Contains s s.
Proof. exists "", "". simpl. now rewrite append_nil_r. Qed.

Lemma Contains_append_r (n a b : string) : Contains n b -> Contains n (a ++ b).
Proof.
  intros (pre & post & ->). exists (a ++ pre), post.
  now rewrite append_assoc.
Qed.

Lemma Contains_append_l (n a b : string) : Contains n a -> Contains n (a ++ b).
Proof.
  intros (pre & post & ->). exists pre, (post ++ b).
  now rewrite !append_assoc.
Qed.

Lemma Contains_head (n b : string) : Contains n (n ++ b).
Proof. apply Contains_append_l, Contains_refl. Qed.

Lemma includes_Contains (n h : string) :
  Js.includes n h = true <-> Contains n h.
Proof.
  split.
  - induction h as [|c h IH]; simpl; intros Hi.
    + apply orb_true_iff in Hi as [Hp|]; [|discriminate].
      destruct n; [apply Contains_refl | discriminate].
    + apply orb_true_iff in Hi as [Hp|Hr].
      * destruct (prefix_split n (String c h) Hp) as [r ->].
        apply Contains_head.
      * apply (Contains_append_r n (String c "") h), IH, Hr.
  - intros (pre & post & ->).
    induction pre as [|c pre IH]; simpl.
    + destruct n as [|d n]; simpl.
      * now destruct post.
      * destruct (ascii_dec d d) as [_|ne]; [|now elim ne].
        now rewrite prefix_append.
    + rewrite IH. apply orb_true_r.
Qed.

Lemma includes_false (n h : string) :
  Js.includes n h = false <-> ~ Contains n h.
Proof.
  rewrite <- includes_Contains. destruct (Js.includes n h); split;
    intros; try discriminate; try reflexivity. now elim H.
Qed.

(** A string that avoids a character and starts a text in which that
    character stands at some place ends before that place. *)
Lemma prefix_before_sep (c : ascii) (p post a b : string) :
  free_of c p = true -> p ++ post = a ++ String c b -> exists r, a = p ++ r.
Proof.
  revert a; induction p as [|x p IH]; intros a Hf He.
  - now exists a.
  - simpl in Hf. apply andb_true_iff in Hf as [Hx Hf].
    destruct a as [|y a]; simpl in He; injection He as -> He.
    + rewrite Ascii.eqb_refl in Hx. discriminate.
    + destruct (IH _ Hf He) as [r ->]. now exists r.
Qed.

(** An occurrence cannot straddle a character it does not contain. *)
Lemma Contains_sep (c : ascii) (p a b : string) :
  free_of c p = true ->
  Contains p (a ++ String c b) -> Contains p a \/ Contains p b.
Proof.
  intros Hf (pre & post & He). revert pre He.
  induction a as [|x a IH]; intros pre He; simpl in He.
  - destruct pre as [|y pre]; simpl in He.
    + destruct p as [|z p]; [left; apply Contains_refl|].
      simpl in Hf, He. injection He as <- _.
      rewrite Ascii.eqb_refl in Hf. discriminate.
    + injection He as _ ->. right. now exists pre, post.
  - destruct pre as [|y pre]; simpl in He.
    + left. destruct (prefix_before_sep c p post (String x a) b Hf) as [r ->].
      * now symmetry.
      * apply Contains_head.
    + injection He as _ He. destruct (IH _ He) as [Ha|Hb]; [left|now right].
      apply (Contains_append_r p (String x "") a Ha).
Qed.

(** ** Identifier predicates *)

Lemma startsWith_append (p s : string) : Js.startsWith (p ++ s) p = true.
Proof. apply prefix_append. Qed.

(** X5: in [src/index.ts] each known prefix is accepted by one predicate
    and rejected by the seven others, whatever follows the hyphen. *)
Lemma index_classifiers_exclusive (P s : string) :
  In P known_prefixes -> accepting Index.classifiers (P ++ "-" ++ s) = 1.
Proof.
  unfold known_prefixes; simpl.
  intros [<-|[<-|[<-|[<-|[<-|[<-|[<-|[<-|[]]]]]]]]];
    unfold accepting, Index.classifiers; cbn; rewrite ?prefix_nil;
    reflexivity.
Qed.

(** ** The request error *)

Lemma request_error_contains (what st url token body : string) :
  let m := Index.request_error what st url token body in
  Contains st m /\ Contains url m /\ Contains body m
  /\ Contains ("*****" ++ Js.slice_last 6 token) m.
Proof.
  unfold Index.request_error; cbv zeta; repeat split.
  - apply Contains_append_r, Contains_head.
  - do 4 apply Contains_append_r. apply Contains_head.
  - do 9 apply Contains_append_r. apply Contains_refl.
  - do 6 apply Contains_append_r.
    change ("api key: *****" ++ Js.slice_last 6 token ++ Js.nl ++ body)
      with ("api key: " ++ ("*****" ++ Js.slice_last 6 token ++ Js.nl ++ body)).
    apply Contains_append_r.
    change ("*****" ++ Js.slice_last 6 token ++ Js.nl ++ body)
      with (("*****" ++ Js.slice_last 6 token) ++ Js.nl ++ body).
    apply Contains_head.
Qed.

Lemma request_error_suffix_only (what st url t1 t2 body : string) :
  Js.slice_last 6 t1 = Js.slice_last 6 t2 ->
  Index.request_error what st url t1 body
  = Index.request_error what st url t2 body.
Proof. unfold Index.request_error. now intros ->. Qed.

Lemma request_error_no_leak (w st url token body p : string) :
  free_of " " p = true ->
  free_of (ascii_of_nat 10) p = true ->
  forallb (fun part => negb (Js.includes p part))
          (report_parts w st url token body) = true ->
  Js.includes p (Index.request_error (w ++ " ") st url token body) = false.
Proof.
  intros Hsp Hnl Hparts. apply includes_false. intros Hc.
  unfold report_parts in Hparts. cbn [forallb] in Hparts.
  repeat (apply andb_true_iff in Hparts as [?%negb_true_iff%includes_false
                                             Hparts]).
  unfold Index.request_error in Hc. rewrite append_assoc in Hc.
  change (" " ++ ?x) with (String " " x) in Hc.
  apply (Contains_sep _ _ _ _ Hsp) in Hc as [Hc|Hc]; [tauto|].
  change (st ++ Js.nl ++ ?x) with (st ++ String (ascii_of_nat 10) x) in Hc.
  apply (Contains_sep _ _ _ _ Hnl) in Hc as [Hc|Hc]; [tauto|].
  change ("url: " ++ ?x) with ("url:" ++ String " " x) in Hc.
  apply (Contains_sep _ _ _ _ Hsp) in Hc as [Hc|Hc]; [tauto|].
  change (url ++ Js.nl ++ ?x) with (url ++ String (ascii_of_nat 10) x) in Hc.
  apply (Contains_sep _ _ _ _ Hnl) in Hc as [Hc|Hc]; [tauto|].
  change ("api key: *****" ++ ?x)
    with ("api" ++ String " " ("key:" ++ String " " ("*****" ++ x))) in Hc.
  apply (Contains_sep _ _ _ _ Hsp) in Hc as [Hc|Hc]; [tauto|].
  apply (Contains_sep _ _ _ _ Hsp) in Hc as [Hc|Hc]; [tauto|].
  change ("*****" ++ Js.slice_last 6 token ++ Js.nl ++ body)
    with (("*****" ++ Js.slice_last 6 token)
            ++ String (ascii_of_nat 10) body) in Hc.
  apply (Contains_sep _ _ _ _ Hnl) in Hc as [Hc|Hc]; tauto.
Qed.

(** What one turn of the loop does, by the response it receives. *)
Lemma paged_turn_spec {T : Type} `{Cursored T}
      (fetch : nat -> Http.Request -> Http.Response (list T))
      (token method : string) (n : nat) (fp : Js.Obj) (objs : list T) :
  let res := fetch n (Index.paged_request token method fp) in
  match Index.paged_turn fetch token method n fp objs with
  | Index.Break objs' =>
      Http.ok res = true /\ Http.json res = [] /\ objs' = objs
  | Index.Continue fp' objs' =>
      Http.ok res = true
      /\ exists page last_object,
          Http.json res = (page ++ [last_object])%list
          /\ fp' = Js.set fp "cursor" (Js.Str (cursor last_object))
          /\ objs' = (objs ++ Http.json res)%list
  | Index.Raise e =>
      Http.ok res = false
      /\ e = Js.Error
               (Index.request_error "Unable to fetch data from render "
                  (Http.statusText res)
                  (Http.req_url (Index.paged_request token method fp))
                  token (Http.text res))
  end.
Proof.
  cbv zeta. unfold Index.paged_turn.
  destruct (Http.ok (fetch n (Index.paged_request token method fp)));
    cbn [negb]; [|now split].
  destruct (Http.json (fetch n (Index.paged_request token method fp)))
    as [|x page] using rev_ind; [now cbn|].
  rewrite length_app, Nat.add_comm. cbn [List.length Nat.add Nat.eqb].
  clear IHpage.
  replace (S (List.length page) - 1) with (List.length page) by lia.
  rewrite nth_error_app2, Nat.sub_diag by lia. cbn.
  split; [reflexivity|]. now exists page, x.
Qed.

(** A request of the loop that is answered with a response that is not
    [ok] ends the call with the request error built from that response. *)
Lemma paged_loop_not_ok {T : Type} `{Cursored T}
      (fetch : nat -> Http.Request -> Http.Response (list T))
      (token method : string) (steps : nat) :
  forall n fp objs k req,
    nth_error (snd (Index.paged_loop fetch token method steps n fp objs)) k
    = Some req ->
    Http.ok (fetch (n + k) req) = false ->
    fst (Index.paged_loop fetch token method steps n fp objs)
    = Js.Threw (Js.Error
        (Index.request_error "Unable to fetch data from render "
           (Http.statusText (fetch (n + k) req)) (Http.req_url req) token
           (Http.text (fetch (n + k) req)))).
Proof.
  induction steps as [|steps IH]; intros n fp objs k req Hk Hok.
  - destruct k; discriminate.
  - cbn [Index.paged_loop] in *.
    pose proof (paged_turn_spec fetch token method n fp objs) as Hturn.
    cbv zeta in Hturn.
    destruct (Index.paged_turn fetch token method n fp objs)
      as [objs'|fp' objs'|e]; cbn [fst snd] in *;
      destruct k as [|k]; cbn [nth_error] in Hk;
      try (destruct k; discriminate).
    + injection Hk as <-. rewrite Nat.add_0_r in Hok. intuition congruence.
    + injection Hk as <-. rewrite Nat.add_0_r in Hok. intuition congruence.
    + rewrite <- Nat.add_succ_comm in *. now apply IH.
    + injection Hk as <-. rewrite Nat.add_0_r in *.
      destruct Hturn as [_ ->]. reflexivity.
Qed.

(** C1 (as amended): in [src/index.ts], a call of [renderGet], [renderPost]
    or [renderGetPaged] that receives a response that is not [ok] throws an
    [Error] whose message is the request error built from the status text,
    the request URL, the token and the body text.  That message contains
    the status text, the URL, the body text and ["*****"] followed by the
    last six characters of the token; the token enters it through those six
    characters only, so tokens that agree on them give the same message;
    and a string without space or line feed that occurs in none of the
    parts of the message (its fixed words, the status text, the URL, the
    masked token, the body) does not occur in the message.  The last six
    characters of ["supersecrettoken123456"] are ["123456"]. *)
Theorem request_error_redacts_token (token method : string) (params : Js.Obj) :
  (forall (T : Type) (fetch : Http.Request -> Http.Response T),
      let r := Index.renderGet fetch token method params in
      exists req,
        Http.sent r = [req]
        /\ Http.req_url req = Index.get_url method params
        /\ (Http.ok (fetch req) = false ->
            Http.outcome r
            = Js.Threw (Js.Error
                (Index.request_error "Unable to fetch data from render "
                   (Http.statusText (fetch req)) (Http.req_url req) token
                   (Http.text (fetch req))))))
  /\ (forall (T : Type) (fetch : Http.Request -> Http.Response T),
      let r := Index.renderPost fetch token method params in
      exists req,
        Http.sent r = [req]
        /\ Http.req_url req = Index.RENDER_API ++ "/" ++ method
        /\ (Http.ok (fetch req) = false ->
            Http.outcome r
            = Js.Threw (Js.Error
                (Index.request_error "Unable to fetch post data from render "
                   (Http.statusText (fetch req)) (Http.req_url req) token
                   (Http.text (fetch req))))))
  /\ (forall (T : Type) (HT : Cursored T)
             (fetch : nat -> Http.Request -> Http.Response (list T))
             (steps k : nat) (req : Http.Request),
      let r := Index.renderGetPaged fetch token method steps params in
      nth_error (Http.sent r) k = Some req ->
      Http.ok (fetch k req) = false ->
      Http.outcome r
      = Js.Threw (Js.Error
          (Index.request_error "Unable to fetch data from render "
             (Http.statusText (fetch k req)) (Http.req_url req) token
             (Http.text (fetch k req)))))
  /\ (forall what st url body : string,
      let m := Index.request_error what st url token body in
      Contains st m /\ Contains url m /\ Contains body m
      /\ Contains ("*****" ++ Js.slice_last 6 token) m
      /\ forall token',
          Js.slice_last 6 token' = Js.slice_last 6 token ->
          Index.request_error what st url token' body = m)
  /\ (forall w st url body p : string,
      free_of " " p = true ->
      free_of (ascii_of_nat 10) p = true ->
      forallb (fun part => negb (Js.includes p part))
              (report_parts w st url token body) = true ->
      Js.includes p (Index.request_error (w ++ " ") st url token body)
      = false)
  /\ Js.slice_last 6 "supersecrettoken123456" = "123456".
Proof.
  repeat apply conj.
  - intros T fetch r. eexists. repeat split. intros Hok.
    unfold r, Index.renderGet. cbn [Http.outcome Http.req_url] in *.
    now rewrite Hok.
  - intros T fetch r. eexists. repeat split. intros Hok.
    unfold r, Index.renderPost. cbn [Http.outcome Http.req_url] in *.
    now rewrite Hok.
  - intros T HT fetch steps k req r Hk Hok.
    unfold r, Index.renderGetPaged in *. cbn [Http.outcome Http.sent] in *.
    now apply (paged_loop_not_ok fetch token method steps 0).
  - intros what st url body m.
    destruct (request_error_contains what st url token body)
      as (? & ? & ? & ?).
    repeat split; try assumption.
    intros token' Heq. now apply request_error_suffix_only.
  - intros. now apply request_error_no_leak.
  - reflexivity.
Qed.

(** With the token of the specification and a response that does not
    repeat it, the message shows [*****123456] and not [supersecret]. *)
Lemma request_error_redacts_token_witness :
  Js.includes "supersecret"
    (Index.request_error ("Unable to fetch data from render" ++ " ")
       "Unauthorized" "https://api.render.com/v1/services?limit=100"
       "supersecrettoken123456" "invalid api key")
  = false.
Proof.
  apply (proj1 (proj2 (proj2 (proj2 (proj2
           (request_error_redacts_token "supersecrettoken123456" "services"
                                        []))))));
    reflexivity.
Defined.

(** C1, as stated, fails: the message carries the body text as the server
    sent it, so a server that repeats the token in its answer puts the
    masked part of the token into the message. *)
Lemma request_error_can_repeat_token :
  exists m,
    Http.outcome
      (Index.renderGet
         (fun _ => Http.mkResponse false "Unauthorized"
                     "invalid api key supersecrettoken123456" tt)
         "supersecrettoken123456" "services" [])
    = Js.Threw (Js.Error m)
    /\ Js.includes "*****123456" m = true
    /\ Js.includes "supersecret" m = true.
Proof. eexists. repeat split; vm_compute; reflexivity. Qed.

(** Nor does it take the server: the masked part of a token may occur in
    the six characters that are shown. *)
Lemma request_error_shows_masked_part :
  Js.slice_last 6 "123123456" = "123456"
  /\ Js.includes "123"
       (Index.request_error "Unable to fetch data from render "
          "Unauthorized" "https://api.render.com/v1/services?limit=100"
          "123123456" "invalid api key")
     = true.
Proof. split; reflexivity. Qed.

(** The earlier copy of the client prints [process.env.RENDER_API_KEY]
    whole and neither the URL nor a masked token. *)
Lemma part001_request_error_prints_key :
  exists m,
    Http.outcome
      (Part001.renderGet (Js.Str "supersecrettoken123456")
         (fun _ => Http.mkResponse false "Unauthorized" "invalid api key" tt)
         "supersecrettoken123456" "services" [])
    = Js.Threw (Js.Error m)
    /\ Js.includes "supersecret" m = true
    /\ Js.includes "*****123456" m = false
    /\ Js.includes "https://api.render.com/v1/services" m = false.
Proof. eexists. repeat split; vm_compute; reflexivity. Qed.

(** C9: in [src/unnamed/part_001] the predicates [isRedisID] and
    [isPostgresID] test the prefix of [isJobID]: a string that starts with
    ["job-"] is accepted by three predicates, and one that starts with
    ["red-"] or ["dpg-"] by none. *)
Theorem part001_classifiers_overlap (s : string) :
  Part001.isJobID ("job" ++ "-" ++ s) = true
  /\ Part001.isRedisID ("job" ++ "-" ++ s) = true
  /\ Part001.isPostgresID ("job" ++ "-" ++ s) = true
  /\ accepting Part001.classifiers ("job" ++ "-" ++ s) = 3
  /\ accepting Part001.classifiers ("red" ++ "-" ++ s) = 0
  /\ accepting Part001.classifiers ("dpg" ++ "-" ++ s) = 0
  /\ Part001.RedisID ("red" ++ "-" ++ s) = true
  /\ Part001.isRedisID ("red" ++ "-" ++ s) = false
  /\ Part001.PostgresID ("dpg" ++ "-" ++ s) = true
  /\ Part001.isPostgresID ("dpg" ++ "-" ++ s) = false.
Proof.
  unfold accepting, Part001.classifiers.
  repeat split; cbn; rewrite ?prefix_nil; reflexivity.
Qed.

(** ** Objects *)

Lemma get_set_same (o : Js.Obj) (k : string) (v : Js.Val) :
  Js.get (Js.set o k v) k = v.
Proof.
  induction o as [|[k' v'] o IH]; simpl.
  - now rewrite String.eqb_refl.
  - destruct (k' =? k) eqn:E; simpl; now rewrite E.
Qed.

Lemma get_set_other (o : Js.Obj) (k k' : string) (v : Js.Val) :
  k <> k' -> Js.get (Js.set o k v) k' = Js.get o k'.
Proof.
  intros Hne. induction o as [|[k1 v1] o IH]; simpl.
  - apply String.eqb_neq in Hne. now rewrite Hne.
  - destruct (k1 =? k) eqn:E; simpl; [|now rewrite IH].
    apply String.eqb_eq in E as ->.
    apply String.eqb_neq in Hne. now rewrite Hne.
Qed.

Lemma has_set (o : Js.Obj) (k k' : string) (v : Js.Val) :
  Js.has (Js.set o k v) k' = Js.has o k' || (k =? k').
Proof.
  induction o as [|[k1 v1] o IH]; simpl.
  - now rewrite orb_false_r.
  - destruct (k1 =? k) eqn:E; simpl.
    + apply String.eqb_eq in E as ->.
      destruct (k =? k'); simpl; [reflexivity | now rewrite orb_false_r].
    + rewrite IH. now rewrite orb_assoc.
Qed.

Lemma set_fresh (o : Js.Obj) (k : string) (v : Js.Val) :
  Js.has o k = false -> Js.set o k v = (o ++ [(k, v)])%list.
Proof.
  induction o as [|[k1 v1] o IH]; simpl; [reflexivity|].
  intros [E Hr]%orb_false_iff. rewrite E. now rewrite IH.
Qed.

Lemma has_app (a b : Js.Obj) (k : string) :
  Js.has (a ++ b)%list k = Js.has a k || Js.has b k.
Proof.
  induction a as [|[k1 v1] a IH]; simpl; [reflexivity|].
  now rewrite IH, orb_assoc.
Qed.

Lemma wf_app_fresh (a b : Js.Obj) (k : string) (v : Js.Val) :
  Js.wf (a ++ (k, v) :: b)%list = true -> Js.has a k = false.
Proof.
  induction a as [|[k1 v1] a IH]; simpl; [reflexivity|].
  intros [Hk Hw]%andb_true_iff. rewrite (IH Hw), orb_false_r.
  apply negb_true_iff in Hk. rewrite has_app in Hk.
  apply orb_false_iff in Hk as [_ Hk]. simpl in Hk.
  apply orb_false_iff in Hk as [Hk _]. now rewrite String.eqb_sym.
Qed.

Lemma wf_set (o : Js.Obj) (k : string) (v : Js.Val) :
  Js.wf o = true -> Js.wf (Js.set o k v) = true.
Proof.
  induction o as [|[k1 v1] o IH]; simpl; [reflexivity|].
  intros [Hk Hw]%andb_true_iff. destruct (k1 =? k) eqn:E; simpl.
  - now rewrite Hk, Hw.
  - rewrite has_set, (IH Hw), andb_true_r.
    apply negb_true_iff in Hk. rewrite Hk. simpl.
    now rewrite String.eqb_sym, E.
Qed.

Lemma has_filter (f : string * Js.Val -> bool) (o : Js.Obj) (k : string) :
  Js.wf o = true ->
  Js.has (filter f o) k = Js.has o k && f (k, Js.get o k).
Proof.
  induction o as [|[k1 v1] o IH]; simpl; [reflexivity|].
  intros [Hk Hw]%andb_true_iff. apply negb_true_iff in Hk.
  destruct (k1 =? k) eqn:E.
  - apply String.eqb_eq in E as ->. simpl.
    destruct (f (k, v1)) eqn:F; simpl.
    + now rewrite String.eqb_refl.
    + rewrite (IH Hw), Hk. reflexivity.
  - simpl. destruct (f (k1, v1)); simpl; rewrite ?E; simpl; now apply IH.
Qed.

Lemma get_filter (f : string * Js.Val -> bool) (o : Js.Obj) (k : string) :
  Js.wf o = true ->
  Js.get (filter f o) k
  = if f (k, Js.get o k) then Js.get o k else Js.Undefined.
Proof.
  induction o as [|[k1 v1] o IH]; simpl; [now destruct (f _)|].
  intros [Hk Hw]%andb_true_iff. apply negb_true_iff in Hk.
  destruct (k1 =? k) eqn:E.
  - apply String.eqb_eq in E as ->.
    destruct (f (k, v1)) eqn:F; simpl.
    + now rewrite String.eqb_refl.
    + assert (Hh : Js.has (filter f o) k = false)
        by (rewrite has_filter, Hk by assumption; reflexivity).
      clear -Hh. induction (filter f o) as [|[k2 v2] r IHr];
        simpl in *; [reflexivity|].
      apply orb_false_iff in Hh as [-> Hh]. now apply IHr.
  - destruct (f (k1, v1)); simpl; rewrite ?E; now apply IH.
Qed.

Lemma wf_filter (f : string * Js.Val -> bool) (o : Js.Obj) :
  Js.wf o = true -> Js.wf (filter f o) = true.
Proof.
  induction o as [|[k1 v1] o IH]; simpl; [reflexivity|].
  intros [Hk Hw]%andb_true_iff. destruct (f (k1, v1)); simpl; [|now apply IH].
  rewrite (IH Hw), andb_true_r, has_filter by assumption.
  apply negb_true_iff in Hk. now rewrite Hk.
Qed.

(** Copying the entries of an object into a fresh one gives the same
    entries. *)
Lemma reduce_entries_wf (es : list (string * Js.Val)) :
  Js.wf es = true -> Index.reduce_entries es = es.
Proof.
  unfold Index.reduce_entries.
  enough (G : forall acc, Js.wf (acc ++ es)%list = true ->
                          fold_left (fun obj kv => Js.set obj (fst kv) (snd kv))
                                    es acc = (acc ++ es)%list)
    by (intros Hw; now apply (G [])).
  induction es as [|[k v] es IH]; intros acc Hw; simpl.
  - now rewrite app_nil_r.
  - rewrite (set_fresh acc k v) by (now apply (wf_app_fresh acc es k v)).
    rewrite IH; rewrite <- app_assoc; [reflexivity | exact Hw].
Qed.

Lemma wf_default_limit (params : Js.Obj) :
  Js.wf params = true -> Js.wf (Index.default_limit params) = true.
Proof.
  intros Hw. unfold Index.default_limit.
  destruct (negb _); [now apply wf_set | exact Hw].
Qed.

Lemma fill_searchParams_of_record (o : Js.Obj) :
  Index.fill_searchParams o = URLSearchParams.of_record o.
Proof.
  unfold Index.fill_searchParams, URLSearchParams.of_record, Js.entries.
  enough (G : forall acc,
             fold_left
               (fun searchParams kv =>
                  match snd kv with
                  | Js.Arr elems =>
                      URLSearchParams.append searchParams (fst kv)
                                             (Js.join "," elems)
                  | value =>
                      URLSearchParams.append searchParams (fst kv)
                                             (Js.toString value)
                  end) o acc
             = (acc ++ map (fun kv => (fst kv, Js.toString (snd kv))) o)%list)
    by apply (G []).
  induction o as [|[k v] o IH]; intros acc; simpl.
  - now rewrite app_nil_r.
  - rewrite IH. unfold URLSearchParams.append.
    destruct v; simpl; now rewrite <- app_assoc.
Qed.

Lemma getAll_of_record (o : Js.Obj) (k : string) :
  Js.wf o = true ->
  URLSearchParams.getAll (URLSearchParams.of_record o) k
  = if Js.has o k then [Js.toString (Js.get o k)] else [].
Proof.
  unfold URLSearchParams.getAll, URLSearchParams.of_record, Js.entries.
  induction o as [|[k1 v1] o IH]; simpl; [reflexivity|].
  intros [Hk Hw]%andb_true_iff. apply negb_true_iff in Hk.
  destruct (k1 =? k) eqn:E; simpl.
  - apply String.eqb_eq in E as ->. rewrite (IH Hw), Hk. reflexivity.
  - now apply IH.
Qed.

(** The parameters [renderGet] sends under a name: the value the bag holds
    for it once the default limit is in place, unless the filter drops
    it. *)
Lemma getAll_get_searchParams (params : Js.Obj) (k : string) :
  Js.wf params = true ->
  let o := Index.default_limit params in
  URLSearchParams.getAll (Index.get_searchParams params) k
  = if Js.has o k && Index.keep_get (k, Js.get o k)
    then [Js.toString (Js.get o k)] else [].
Proof.
  intros Hw o. unfold Index.get_searchParams, Js.entries.
  pose proof (wf_default_limit params Hw) as Hwo. fold o in Hwo |- *.
  rewrite reduce_entries_wf by (now apply wf_filter).
  rewrite fill_searchParams_of_record.
  rewrite getAll_of_record by (now apply wf_filter).
  rewrite has_filter, get_filter by assumption.
  destruct (Js.has o k); simpl; [|reflexivity].
  now destruct (Index.keep_get (k, Js.get o k)).
Qed.



(** ** The query string reads back as the parameters it was made from *)

Lemma decode_encode_byte (c : ascii) (rest : string) :
  URLSearchParams.decode (URLSearchParams.encode_byte c ++ rest)
  = String c (URLSearchParams.decode rest).
Proof.
  destruct c as [[|] [|] [|] [|] [|] [|] [|] [|]]; reflexivity.
Qed.

Lemma decode_encode (s : string) :
  URLSearchParams.decode (URLSearchParams.encode s) = s.
Proof.
  induction s as [|c s IH]; simpl; [reflexivity|].
  now rewrite decode_encode_byte, IH.
Qed.

Lemma free_of_append (c : ascii) (a b : string) :
  free_of c (a ++ b) = free_of c a && free_of c b.
Proof.
  induction a as [|x a IH]; simpl; [reflexivity|].
  now rewrite IH, andb_assoc.
Qed.

Lemma encode_byte_free (c : ascii) :
  free_of "&" (URLSearchParams.encode_byte c) = true
  /\ free_of "=" (URLSearchParams.encode_byte c) = true.
Proof.
  destruct c as [[|] [|] [|] [|] [|] [|] [|] [|]]; split; reflexivity.
Qed.

Lemma encode_free (s : string) :
  free_of "&" (URLSearchParams.encode s) = true
  /\ free_of "=" (URLSearchParams.encode s) = true.
Proof.
  induction s as [|c s [IHa IHe]]; simpl; [now split|].
  rewrite !free_of_append, IHa, IHe.
  destruct (encode_byte_free c) as [-> ->]. now split.
Qed.

Lemma split_pair_at (a b : string) :
  free_of "=" a = true ->
  URLSearchParams.split_pair (a ++ String "=" b) = (a, b).
Proof.
  induction a as [|x a IH]; simpl; [reflexivity|].
  intros [Hx Ha]%andb_true_iff. apply negb_true_iff in Hx.
  now rewrite Hx, (IH Ha).
Qed.

Lemma split_at (sep : ascii) (a b : string) :
  free_of sep a = true ->
  URLSearchParams.split sep (a ++ String sep b)
  = a :: URLSearchParams.split sep b.
Proof.
  induction a as [|x a IH]; simpl.
  - now rewrite Ascii.eqb_refl.
  - intros [Hx Ha]%andb_true_iff. apply negb_true_iff in Hx.
    now rewrite Hx, (IH Ha).
Qed.

Lemma split_none (sep : ascii) (a : string) :
  free_of sep a = true -> URLSearchParams.split sep a = [a].
Proof.
  induction a as [|x a IH]; simpl; [reflexivity|].
  intros [Hx Ha]%andb_true_iff. apply negb_true_iff in Hx.
  now rewrite Hx, (IH Ha).
Qed.

Lemma split_concat (segs : list string) :
  segs <> [] ->
  Forall (fun seg => free_of "&" seg = true) segs ->
  URLSearchParams.split "&" (String.concat "&" segs) = segs.
Proof.
  induction segs as [|x segs IH]; [congruence|].
  intros _ Hall. inversion Hall as [|? ? Hx Hrest]; subst.
  destruct segs as [|y segs]; simpl.
  - now apply split_none.
  - change ("&" ++ ?r) with (String "&" r).
    rewrite split_at by assumption. f_equal. now apply IH.
Qed.

Lemma encode_pair_shape (p : string * string) :
  free_of "&" (URLSearchParams.encode_pair p) = true
  /\ (URLSearchParams.encode_pair p =? "") = false
  /\ URLSearchParams.split_pair (URLSearchParams.encode_pair p)
     = (URLSearchParams.encode (fst p), URLSearchParams.encode (snd p)).
Proof.
  unfold URLSearchParams.encode_pair.
  destruct (encode_free (fst p)) as [Ha He].
  destruct (encode_free (snd p)) as [Ha' _].
  change ("=" ++ ?r) with (String "=" r). repeat split.
  - rewrite free_of_append, Ha. simpl. exact Ha'.
  - apply String.eqb_neq. now destruct (URLSearchParams.encode (fst p)).
  - now apply split_pair_at.
Qed.

Lemma parse_toString (sp : URLSearchParams.t) :
  URLSearchParams.parse (URLSearchParams.toString sp) = sp.
Proof.
  unfold URLSearchParams.parse, URLSearchParams.toString.
  destruct sp as [|p sp]; [reflexivity|].
  rewrite split_concat.
  - induction (p :: sp) as [|[n v] l IH]; [reflexivity|].
    cbn [map filter].
    destruct (encode_pair_shape (n, v)) as (_ & E1 & E2).
    rewrite E1. cbn [negb map]. rewrite E2.
    cbn [fst snd]. now rewrite !decode_encode, IH.
  - discriminate.
  - apply Forall_forall. intros seg [q [<- _]]%in_map_iff.
    apply encode_pair_shape.
Qed.



(** ** The caller's parameter bag *)

Lemma default_limit_frame (params : Js.Obj) (k : string) :
  k <> "limit" ->
  Js.get (Index.default_limit params) k = Js.get params k
  /\ Js.has (Index.default_limit params) k = Js.has params k.
Proof.
  intros Hne. unfold Index.default_limit. destruct (negb _); [|now split].
  split.
  - apply get_set_other. congruence.
  - rewrite has_set. assert (E : ("limit" =? k) = false)
      by (apply String.eqb_neq; congruence).
    now rewrite E, orb_false_r.
Qed.

(** C2 (as amended): [renderGet] and [renderGetPaged] leave the caller's bag
    as the default-limit step made it.  The filter works on a fresh object
    and the cursor is written to that object, so every key other than
    [limit] is in the bag after the call exactly when it was before, with
    the same value, and no [cursor] is added; a bag whose [limit] is truthy
    is unchanged; a bag whose [limit] is falsy (absent, [undefined] or
    empty) has [limit] set to ["100"] by the call. *)
Theorem caller_bag_after_call (token method : string) (params : Js.Obj) :
  (forall (T : Type) (fetch : Http.Request -> Http.Response T),
      Http.bag (Index.renderGet fetch token method params)
      = Index.default_limit params)
  /\ (forall (T : Type) (HT : Cursored T)
             (fetch : nat -> Http.Request -> Http.Response (list T))
             (steps : nat),
      Http.bag (Index.renderGetPaged fetch token method steps params)
      = Index.default_limit params)
  /\ (forall k, k <> "limit" ->
        Js.get (Index.default_limit params) k = Js.get params k
        /\ Js.has (Index.default_limit params) k = Js.has params k)
  /\ (Js.truthy (Js.get params "limit") = true ->
      Index.default_limit params = params)
  /\ (Js.truthy (Js.get params "limit") = false ->
      Js.get (Index.default_limit params) "limit" = Js.Str "100"
      /\ Js.has (Index.default_limit params) "limit" = true).
Proof.
  repeat apply conj; try reflexivity.
  - intros k Hne. now apply default_limit_frame.
  - intros Ht. unfold Index.default_limit. now rewrite Ht.
  - intros Ht. unfold Index.default_limit. rewrite Ht. cbn [negb]. split.
    + apply get_set_same.
    + rewrite has_set, String.eqb_refl. apply orb_true_r.
Qed.

Lemma caller_bag_after_call_witness :
  Js.get (Index.default_limit [("id", Js.Str "x")]) "limit" = Js.Str "100"
  /\ Js.has (Index.default_limit [("id", Js.Str "x")]) "limit" = true.
Proof.
  apply (proj2 (proj2 (proj2 (proj2
           (caller_bag_after_call "t" "services" [("id", Js.Str "x")]))))).
  reflexivity.
Defined.

(** C2, as stated, fails: a bag without [limit] has one after the call. *)
Lemma call_adds_limit_to_bag :
  let params := [("id", Js.Str "x")] in
  let got :=
    Index.renderGet (fun _ => Http.mkResponse true "OK" "" tt)
                    "t" "services" params in
  let paged :=
    Index.renderGetPaged (T := Index.ServiceCursor) (scripted [])
                         "t" "services" 1 params in
  Js.has params "limit" = false
  /\ Js.get params "limit" = Js.Undefined
  /\ Js.has (Http.bag got) "limit" = true
  /\ Js.get (Http.bag got) "limit" = Js.Str "100"
  /\ Js.has (Http.bag paged) "limit" = true
  /\ Js.get (Http.bag paged) "limit" = Js.Str "100"
  /\ Http.outcome paged = Js.Returned [].
Proof. repeat split. Qed.

(** ** The query string of [renderGet] *)

Lemma renderGet_request {T : Type} (fetch : Http.Request -> Http.Response T)
      (token method : string) (params : Js.Obj) :
  Http.sent (Index.renderGet fetch token method params)
  = [Http.mkRequest "GET" (Index.get_url method params)
                    (Index.make_headers token) None].
Proof. reflexivity. Qed.





(** ** The pagination loop *)

Section Loop.
Context {T : Type} `{Cursored T}.
Variable fetch : nat -> Http.Request -> Http.Response (list T).
Variables token method : string.

Lemma paged_loop_head (steps n : nat) (fp : Js.Obj) (objs : list T) :
  snd (Index.paged_loop fetch token method (S steps) n fp objs)
  = Index.paged_request token method fp :: tl (snd (Index.paged_loop fetch token method (S steps) n fp objs)).
Proof.
  cbn [Index.paged_loop].
  now destruct (Index.paged_turn fetch token method n fp objs).
Qed.

(** Pages that are not empty keep the loop going; the empty page that
    follows them ends it, with everything received so far. *)
Lemma paged_loop_finishes (m : nat) :
  forall steps n fp objs,
    m < steps ->
    (forall i req, i < m ->
       Http.ok (fetch (n + i) req) = true
       /\ Http.json (fetch (n + i) req) <> []) ->
    (forall req,
       Http.ok (fetch (n + m) req) = true
       /\ Http.json (fetch (n + m) req) = []) ->
    fst (Index.paged_loop fetch token method steps n fp objs)
    = Js.Returned
        (objs ++ concat (map Http.json
                           (responses fetch n
                              (snd (Index.paged_loop fetch token method
                                                     steps n fp objs)))))%list
    /\ List.length (snd (Index.paged_loop fetch token method steps n fp objs)) = S m.
Proof.
  induction m as [|m IH]; intros steps n fp objs Hlt Hpages Hlast;
    (destruct steps as [|steps]; [lia|]); cbn [Index.paged_loop];
    pose proof (paged_turn_spec fetch token method n fp objs) as Hturn;
    cbv zeta in Hturn;
    destruct (Index.paged_turn fetch token method n fp objs)
      as [objs'|fp' objs'|e]; cbn [fst snd List.length responses map concat].
  - destruct Hturn as (_ & -> & ->). now rewrite !app_nil_r.
  - destruct Hturn as (_ & page & x & Hj & _).
    destruct (Hlast (Index.paged_request token method fp)) as [_ He].
    rewrite Nat.add_0_r in He. rewrite He in Hj. now destruct page.
  - destruct Hturn as [Hok _]. destruct (Hlast (Index.paged_request token method fp)) as [Ho _].
    rewrite Nat.add_0_r in Ho. congruence.
  - destruct Hturn as (_ & He & _).
    destruct (Hpages 0 (Index.paged_request token method fp)) as [_ Hn]; [lia|].
    rewrite Nat.add_0_r in Hn. contradiction.
  - destruct Hturn as (_ & page & x & _ & _ & ->).
    destruct (IH steps (S n) fp'
                 (objs ++ Http.json (fetch n (Index.paged_request token method fp)))%list)
      as [Ho Hl].
    + lia.
    + intros i req Hi. rewrite Nat.add_succ_comm. apply Hpages. lia.
    + intros req. rewrite Nat.add_succ_comm. apply Hlast.
    + rewrite Ho, Hl. now rewrite <- app_assoc.
  - destruct Hturn as [Hok _].
    destruct (Hpages 0 (Index.paged_request token method fp)) as [Ho _]; [lia|].
    rewrite Nat.add_0_r in Ho. congruence.
Qed.

(** The loop returns only on an empty page, which is the answer to its
    last request; the answers before were pages that are not empty. *)
Lemma paged_loop_returned (steps : nat) :
  forall n fp objs res,
    fst (Index.paged_loop fetch token method steps n fp objs) = Js.Returned res ->
    exists m last_req,
      List.length (snd (Index.paged_loop fetch token method steps n fp objs)) = S m
      /\ nth_error (snd (Index.paged_loop fetch token method steps n fp objs)) m = Some last_req
      /\ Http.ok (fetch (n + m) last_req) = true
      /\ Http.json (fetch (n + m) last_req) = []
      /\ forall i req,
          i < m -> nth_error (snd (Index.paged_loop fetch token method steps n fp objs)) i = Some req ->
          Http.ok (fetch (n + i) req) = true
          /\ Http.json (fetch (n + i) req) <> [].
Proof.
  induction steps as [|steps IH]; intros n fp objs res; [discriminate|].
  cbn [Index.paged_loop].
  pose proof (paged_turn_spec fetch token method n fp objs) as Hturn.
  cbv zeta in Hturn.
  destruct (Index.paged_turn fetch token method n fp objs)
    as [objs'|fp' objs'|e]; cbn [fst snd]; intros Hr; [| |discriminate].
  - destruct Hturn as (Hok & He & _).
    exists 0, (Index.paged_request token method fp). rewrite Nat.add_0_r.
    do 4 (split; [easy|]). intros i req Hi. lia.
  - destruct Hturn as (Hok & page & x & Hj & _).
    destruct (IH _ _ _ _ Hr) as (m & lr & Hl & Hn & Ho & He & Hbefore).
    exists (S m), lr. rewrite <- Nat.add_succ_comm.
    cbn [List.length nth_error].
    split; [now rewrite Hl|]. do 3 (split; [assumption|]).
    intros i req Hi Hreq. destruct i as [|i]; cbn [nth_error] in Hreq.
    + injection Hreq as <-. rewrite Nat.add_0_r, Hj.
      split; [assumption | now destruct page].
    + rewrite <- Nat.add_succ_comm. apply (Hbefore i req); [lia|].
      assumption.
Qed.

(** A server that never sends an empty page, nor an error, keeps the loop
    running for as many turns as it is given. *)
Lemma paged_loop_unbounded :
  (forall i req,
      Http.ok (fetch i req) = true /\ Http.json (fetch i req) <> []) ->
  forall steps n fp objs,
    fst (Index.paged_loop fetch token method steps n fp objs) = Js.Running
    /\ List.length (snd (Index.paged_loop fetch token method steps n fp objs)) = steps.
Proof.
  intros Hnever. induction steps as [|steps IH]; intros n fp objs;
    [now split|].
  cbn [Index.paged_loop].
  pose proof (paged_turn_spec fetch token method n fp objs) as Hturn.
  cbv zeta in Hturn.
  destruct (Hnever n (Index.paged_request token method fp)) as [Hok Hne].
  destruct (Index.paged_turn fetch token method n fp objs)
    as [objs'|fp' objs'|e]; cbn [fst snd List.length].
  - destruct Hturn as (_ & He & _). contradiction.
  - destruct (IH (S n) fp' objs') as [-> ->]. now split.
  - destruct Hturn as [Ho _]. congruence.
Qed.

(** The request after a page asks for the cursor of the last element of
    that page. *)
Lemma paged_loop_cursor (steps : nat) :
  forall n fp objs i req req',
    Js.wf fp = true ->
    nth_error (snd (Index.paged_loop fetch token method steps n fp objs)) i = Some req ->
    nth_error (snd (Index.paged_loop fetch token method steps n fp objs)) (S i) = Some req' ->
    exists page last_object fp',
      Http.json (fetch (n + i) req) = (page ++ [last_object])%list
      /\ req' = Index.paged_request token method fp'
      /\ Js.wf fp' = true
      /\ Js.get fp' "cursor" = Js.Str (cursor last_object)
      /\ Js.has fp' "cursor" = true.
Proof.
  induction steps as [|steps IH]; intros n fp objs i req req' Hwf Hi Hi';
    [destruct i; discriminate|].
  cbn [Index.paged_loop] in Hi, Hi'.
  pose proof (paged_turn_spec fetch token method n fp objs) as Hturn.
  cbv zeta in Hturn.
  destruct (Index.paged_turn fetch token method n fp objs)
    as [objs'|fp' objs'|e]; cbn [fst snd nth_error] in Hi, Hi';
    try (destruct i; discriminate).
  destruct Hturn as (_ & page & x & Hj & -> & _).
  assert (Hwf' : Js.wf (Js.set fp "cursor" (Js.Str (cursor x))) = true)
    by now apply wf_set.
  destruct i as [|i]; cbn [nth_error] in Hi, Hi'.
  - injection Hi as <-. rewrite Nat.add_0_r.
    exists page, x, (Js.set fp "cursor" (Js.Str (cursor x))).
    repeat split; try assumption.
    + destruct steps as [|steps]; [discriminate|].
      rewrite paged_loop_head in Hi'. now injection Hi' as <-.
    + apply get_set_same.
    + rewrite has_set, String.eqb_refl. apply orb_true_r.
  - rewrite <- Nat.add_succ_comm. now apply (IH _ _ _ _ _ _ Hwf' Hi Hi').
Qed.

End Loop.

Lemma wf_reduce_entries (es : list (string * Js.Val)) :
  Js.wf (Index.reduce_entries es) = true.
Proof.
  unfold Index.reduce_entries.
  enough (G : forall acc, Js.wf acc = true ->
                Js.wf (fold_left (fun obj kv => Js.set obj (fst kv) (snd kv))
                                 es acc) = true) by now apply G.
  induction es as [|[k v] es IH]; intros acc Hacc; simpl; [exact Hacc|].
  now apply IH, wf_set.
Qed.

(** Between two consecutive requests of a call the first was answered with
    a page, and the query string of the second carries, as its one [cursor]
    parameter, the cursor of the last element of that page. *)
Lemma renderGetPaged_next_cursor {T : Type} `{Cursored T}
      (fetch : nat -> Http.Request -> Http.Response (list T))
      (token method : string) (steps : nat) (params : Js.Obj)
      (i : nat) (req req' : Http.Request) :
  let r := Index.renderGetPaged fetch token method steps params in
  nth_error (Http.sent r) i = Some req ->
  nth_error (Http.sent r) (S i) = Some req' ->
  exists page last_object query,
    Http.json (fetch i req) = (page ++ [last_object])%list
    /\ Http.req_url req' = Index.RENDER_API ++ "/" ++ method ++ "?" ++ query
    /\ URLSearchParams.getAll (URLSearchParams.parse query) "cursor"
       = [cursor last_object].
Proof.
  intros r Hi Hi'. unfold r, Index.renderGetPaged in Hi, Hi'.
  cbn [Http.sent] in Hi, Hi'.
  destruct (paged_loop_cursor fetch token method steps 0 _ _ i req req'
              (wf_reduce_entries _) Hi Hi')
    as (page & x & fp' & Hj & -> & Hwf & Hg & Hh).
  exists page, x, (URLSearchParams.toString (URLSearchParams.of_record fp')).
  split; [exact Hj|]. split; [reflexivity|].
  rewrite parse_toString, getAll_of_record by assumption.
  now rewrite Hh, Hg.
Qed.

(** C3: against a server that answers with pages of two, two and no
    elements, [renderGetPaged] returns the four elements in order and sends
    three requests, the second and third asking for the cursor of the last
    element of the page before; and in any call, the request that follows
    a page asks for the cursor of the last element of that page. *)
Theorem paged_two_two_zero {T : Type} `{Cursored T} (a b c d : T)
        (token method : string) (params : Js.Obj) (steps : nat)
        (Hsteps : 3 <= steps) :
  let r :=
    Index.renderGetPaged (scripted [[a; b]; [c; d]; []]) token method steps
                         params in
  Http.outcome r = Js.Returned [a; b; c; d]
  /\ List.length (Http.sent r) = 3
  /\ (exists q1 q2 q3,
        map Http.req_url (Http.sent r)
        = [Index.RENDER_API ++ "/" ++ method ++ "?" ++ q1;
           Index.RENDER_API ++ "/" ++ method ++ "?" ++ q2;
           Index.RENDER_API ++ "/" ++ method ++ "?" ++ q3]
        /\ URLSearchParams.getAll (URLSearchParams.parse q2) "cursor"
           = [cursor b]
        /\ URLSearchParams.getAll (URLSearchParams.parse q3) "cursor"
           = [cursor d])
  /\ (forall (fetch : nat -> Http.Request -> Http.Response (list T))
             (steps' i : nat) (req req' : Http.Request),
        let r' := Index.renderGetPaged fetch token method steps' params in
        nth_error (Http.sent r') i = Some req ->
        nth_error (Http.sent r') (S i) = Some req' ->
        exists page last_object query,
          Http.json (fetch i req) = (page ++ [last_object])%list
          /\ Http.req_url req'
             = Index.RENDER_API ++ "/" ++ method ++ "?" ++ query
          /\ URLSearchParams.getAll (URLSearchParams.parse query) "cursor"
             = [cursor last_object]).
Proof.
  intros r.
  assert (Hrun : Http.outcome r
                 = Js.Returned
                     (concat (map Http.json
                                  (responses (scripted [[a; b]; [c; d]; []]) 0
                                             (Http.sent r))))
                 /\ List.length (Http.sent r) = 3).
  { unfold r, Index.renderGetPaged. cbn [Http.outcome Http.sent].
    apply (paged_loop_finishes (scripted [[a; b]; [c; d]; []]) token method 2
                               steps 0 _ []);
      [lia| |now split].
    intros i req Hi. destruct i as [|[|i]]; [now split..|lia]. }
  destruct Hrun as [Hout Hlen].
  destruct (Http.sent r) as [|r0 [|r1 [|r2 [|r3 log]]]] eqn:Hsent;
    try discriminate.
  split; [exact Hout|]. split; [reflexivity|]. split.
  - assert (H0 : exists q1, Http.req_url r0
                   = Index.RENDER_API ++ "/" ++ method ++ "?" ++ q1).
    { unfold r, Index.renderGetPaged in Hsent. cbn [Http.sent] in Hsent.
      destruct steps as [|steps]; [lia|].
      rewrite paged_loop_head in Hsent. injection Hsent as <- _.
      eexists. reflexivity. }
    destruct H0 as [q1 Hq1].
    destruct (renderGetPaged_next_cursor (scripted [[a; b]; [c; d]; []])
                token method steps params 0 r0 r1)
      as (p1 & x1 & q2 & Hj1 & Hq2 & Hc2);
      [fold r; now rewrite Hsent..|].
    destruct (renderGetPaged_next_cursor (scripted [[a; b]; [c; d]; []])
                token method steps params 1 r1 r2)
      as (p2 & x2 & q3 & Hj2 & Hq3 & Hc3);
      [fold r; now rewrite Hsent..|].
    cbn in Hj1, Hj2.
    apply (app_inj_tail [a] p1 b x1) in Hj1 as [_ <-].
    apply (app_inj_tail [c] p2 d x2) in Hj2 as [_ <-].
    exists q1, q2, q3. cbn [map]. now rewrite Hq1, Hq2, Hq3.
  - intros fetch steps' i req req' r'.
    apply renderGetPaged_next_cursor.
Qed.

Lemma paged_two_two_zero_witness :
  Http.outcome
    (Index.renderGetPaged
       (scripted [[enveloped "c1" "a"; enveloped "c2" "b"];
                  [enveloped "c3" "c"; enveloped "c4" "d"]; []])
       "token" "services" 3 [])
  = Js.Returned [enveloped "c1" "a"; enveloped "c2" "b";
                 enveloped "c3" "c"; enveloped "c4" "d"].
Proof.
  apply (paged_two_two_zero
           (enveloped "c1" "a") (enveloped "c2" "b")
           (enveloped "c3" "c") (enveloped "c4" "d")
           "token" "services" [] 3).
  apply le_n.
Defined.

(** C4: the loop of [renderGetPaged] has no cap on its turns.  For every
    [n], against a server that answers with [n] pages that are not empty
    and then an empty page, the call returns after exactly [n + 1] requests,
    one per turn, whatever larger number of turns it is allowed; it
    returns only when the answer to its last request is an empty page;
    against a server that never sends an empty page it is still running
    after any number of turns; and a successful response with no elements
    ends the loop in that turn. *)
Theorem paged_loop_no_cap {T : Type} `{Cursored T}
        (fetch : nat -> Http.Request -> Http.Response (list T))
        (token method : string) (params : Js.Obj) :
  (forall n steps,
      n < steps ->
      (forall i req, i < n ->
         Http.ok (fetch i req) = true /\ Http.json (fetch i req) <> []) ->
      (forall req,
         Http.ok (fetch n req) = true /\ Http.json (fetch n req) = []) ->
      let r := Index.renderGetPaged fetch token method steps params in
      Http.outcome r
      = Js.Returned (concat (map Http.json (responses fetch 0 (Http.sent r))))
      /\ List.length (Http.sent r) = S n)
  /\ (forall steps res,
      let r := Index.renderGetPaged fetch token method steps params in
      Http.outcome r = Js.Returned res ->
      exists m last_req,
        List.length (Http.sent r) = S m
        /\ nth_error (Http.sent r) m = Some last_req
        /\ Http.ok (fetch m last_req) = true
        /\ Http.json (fetch m last_req) = []
        /\ forall i req,
            i < m -> nth_error (Http.sent r) i = Some req ->
            Http.ok (fetch i req) = true /\ Http.json (fetch i req) <> [])
  /\ ((forall i req,
         Http.ok (fetch i req) = true /\ Http.json (fetch i req) <> []) ->
      forall steps,
        let r := Index.renderGetPaged fetch token method steps params in
        Http.outcome r = Js.Running /\ List.length (Http.sent r) = steps)
  /\ (forall n filteredParams objects,
      let res := fetch n (Index.paged_request token method filteredParams) in
      Http.ok res = true -> Http.json res = [] ->
      Index.paged_turn fetch token method n filteredParams objects
      = Index.Break objects).
Proof.
  repeat apply conj.
  - intros n steps Hlt Hpages Hlast r. unfold r, Index.renderGetPaged.
    cbn [Http.outcome Http.sent].
    now apply (paged_loop_finishes fetch token method n steps 0 _ []).
  - intros steps res r Hr. unfold r, Index.renderGetPaged in *.
    cbn [Http.outcome Http.sent] in *.
    apply (paged_loop_returned fetch token method steps 0 _ _ _ Hr).
  - intros Hnever steps r. unfold r, Index.renderGetPaged.
    cbn [Http.outcome Http.sent].
    now apply paged_loop_unbounded.
  - intros n fp objs res Hok He. unfold Index.paged_turn.
    fold res. now rewrite Hok, He.
Qed.

Lemma paged_loop_no_cap_witness :
  let fetch :=
    scripted [[enveloped "c1" "a"]; [enveloped "c2" "b"]; []] in
  let r := Index.renderGetPaged fetch "token" "services" 7 [] in
  Http.outcome r
  = Js.Returned (concat (map Http.json (responses fetch 0 (Http.sent r))))
  /\ List.length (Http.sent r) = 3.
Proof.
  intros fetch r.
  apply (proj1 (paged_loop_no_cap fetch "token" "services" []) 2 7).
  - repeat constructor.
  - intros i req Hi. destruct i as [|[|i]].
    + split; [reflexivity | discriminate].
    + split; [reflexivity | discriminate].
    + exfalso. apply (Nat.nlt_0_r i). now do 2 apply Nat.succ_lt_mono.
  - intros req. split; reflexivity.
Defined.

(** ** The resolver *)

Section Resolving.
Variable regexp : string -> option (string -> bool).
Variable fetch_service : Http.Request -> Http.Response Index.Service.
Variable fetch_services :
  nat -> Http.Request -> Http.Response (list Index.ServiceCursor).
Variables (steps : nat) (apiKey serviceIDOrName : string).

(** The listing succeeds with the envelopes [objs]; the input is a valid
    pattern, tested by [test]; the empty pattern matches every name. *)
Variable objs : list Index.ServiceCursor.
Variable test : string -> bool.
Hypothesis listed :
  Http.outcome
    (Index.renderGetPaged fetch_services apiKey "services" steps [])
  = Js.Returned objs.
Hypothesis compiled : regexp serviceIDOrName = Some test.
Hypothesis empty_pattern :
  serviceIDOrName = "" -> forall n, test n = true.

Lemma getServices_matching :
  Http.outcome
    (Index.getServices regexp fetch_services steps apiKey serviceIDOrName)
  = Js.Returned
      (filter (fun s => test (Index.name s)) (map Index.service objs)).
Proof.
  unfold Index.getServices. rewrite listed. cbn [Http.outcome].
  destruct (String.eqb_spec serviceIDOrName "") as [E|E]; cbn [negb].
  - f_equal. symmetry. apply forallb_filter_id, forallb_forall.
    intros s _. now apply empty_pattern.
  - unfold Index.filter_by_name. rewrite compiled.
    now destruct (map Index.service objs).
Qed.

Lemma determineService_by_name :
  Index.isServiceID serviceIDOrName = false ->
  Http.outcome
    (Index.determineService regexp fetch_service fetch_services steps
                            apiKey serviceIDOrName)
  = match filter (fun s => test (Index.name s)) (map Index.service objs)
    with
    | [] =>
        Js.Threw (Js.Error (Index.not_found_message serviceIDOrName))
    | [only] => Js.Returned only
    | (_ :: _ :: _) as services =>
        match find (fun s => Index.name s =? serviceIDOrName) services with
        | Some exactMatch => Js.Returned exactMatch
        | None =>
            Js.Threw (Js.Error (Index.too_many_message serviceIDOrName
                                                       services))
        end
    end.
Proof.
  intros Hid. unfold Index.determineService. rewrite Hid.
  pose proof getServices_matching as Hm. cbv zeta.
  destruct (Http.outcome
              (Index.getServices regexp fetch_services steps apiKey
                                 serviceIDOrName)); try discriminate.
  injection Hm as ->.
  destruct (filter _ _) as [|s1 [|s2 rest]]; try reflexivity.
  now destruct (find _ _).
Qed.

End Resolving.


Lemma find_none_iff (input : string) (services : list Index.Service) :
  find (fun s => Index.name s =? input) services = None
  <-> forall s, In s services -> Index.name s <> input.
Proof.
  split.
  - intros Hf s Hin. apply String.eqb_neq. exact (find_none _ _ Hf s Hin).
  - intros Hall. destruct (find _ services) as [s|] eqn:Hf; [|reflexivity].
    apply find_some in Hf as [Hin He]. apply String.eqb_eq in He.
    now elim (Hall s Hin).
Qed.

(** C5 (as amended): for an input that is not of service-ID form (it does
    not start with ["srv-"]), when the listing returns services of which
    more than one has a name that matches the input as a pattern, and some
    matching service has a name equal to the input, [determineService]
    returns the first matching service whose name equals the input. *)
Theorem determineService_exact_match
        (regexp : string -> option (string -> bool))
        (fetch_service : Http.Request -> Http.Response Index.Service)
        (fetch_services :
           nat -> Http.Request -> Http.Response (list Index.ServiceCursor))
        (steps : nat) (apiKey serviceIDOrName : string)
        (objs : list Index.ServiceCursor) (test : string -> bool)
        (Hname : Index.isServiceID serviceIDOrName = false)
        (Hlisted :
           Http.outcome
             (Index.renderGetPaged fetch_services apiKey "services" steps [])
           = Js.Returned objs)
        (Hpattern : regexp serviceIDOrName = Some test)
        (Hempty : serviceIDOrName = "" -> forall n, test n = true) :
  let matching :=
    filter (fun s => test (Index.name s)) (map Index.service objs) in
  1 < List.length matching ->
  (exists s, In s matching /\ Index.name s = serviceIDOrName) ->
  exists exactMatch,
    Http.outcome
      (Index.determineService regexp fetch_service fetch_services steps
                              apiKey serviceIDOrName)
    = Js.Returned exactMatch
    /\ Index.name exactMatch = serviceIDOrName
    /\ In exactMatch matching
    /\ find (fun s => Index.name s =? serviceIDOrName) matching
       = Some exactMatch.
Proof.
  intros matching Hmany (s & Hin & Hs).
  rewrite (determineService_by_name regexp fetch_service fetch_services steps
             apiKey serviceIDOrName objs test Hlisted Hpattern Hempty Hname).
  fold matching. clearbody matching.
  destruct (find (fun s => Index.name s =? serviceIDOrName) matching)
    as [exact|] eqn:Hf.
  - exists exact. destruct (find_some _ _ Hf) as [Hi He].
    apply String.eqb_eq in He.
    destruct matching as [|s1 [|s2 rest]]; cbn in Hmany; try lia.
    cbv beta iota zeta. rewrite Hf. now repeat split.
  - exfalso. exact (proj1 (find_none_iff serviceIDOrName matching) Hf s Hin Hs).
Qed.

Lemma determineService_exact_match_witness :
  exists exactMatch,
    Http.outcome
      (Index.determineService
         literal_regexp
         (fun _ => Http.mkResponse false "Not Found" ""
                     (Index.service (enveloped "" "")))
         (scripted [[enveloped "c1" "foo-prod";
                     enveloped "c2" "foo-prod-staging";
                     enveloped "c3" "foo-prod-canary"]])
         2 "key" "foo-prod")
    = Js.Returned exactMatch
    /\ Index.name exactMatch = "foo-prod"
    /\ In exactMatch
          (filter (fun s => Js.includes "foo-prod" (Index.name s))
                  (map Index.service
                       [enveloped "c1" "foo-prod";
                        enveloped "c2" "foo-prod-staging";
                        enveloped "c3" "foo-prod-canary"]))
    /\ find (fun s => Index.name s =? "foo-prod")
            (filter (fun s => Js.includes "foo-prod" (Index.name s))
                    (map Index.service
                         [enveloped "c1" "foo-prod";
                          enveloped "c2" "foo-prod-staging";
                          enveloped "c3" "foo-prod-canary"]))
       = Some exactMatch.
Proof.
  apply (determineService_exact_match
           literal_regexp
           (fun _ => Http.mkResponse false "Not Found" ""
                       (Index.service (enveloped "" "")))
           (scripted [[enveloped "c1" "foo-prod";
                       enveloped "c2" "foo-prod-staging";
                       enveloped "c3" "foo-prod-canary"]])
           2 "key" "foo-prod"
           [enveloped "c1" "foo-prod"; enveloped "c2" "foo-prod-staging";
            enveloped "c3" "foo-prod-canary"]
           (fun subject => Js.includes "foo-prod" subject)
           eq_refl eq_refl eq_refl).
  - discriminate.
  - repeat constructor.
  - exists (Index.service (enveloped "c1" "foo-prod")).
    split; [now left | reflexivity].
Defined.

(** C5, as stated, fails for an input of service-ID form: two services
    are listed whose names match ["srv-foo"], one of them named exactly so,
    and the resolver asks for the service with that id instead and fails
    with the error of that request. *)
Lemma determineService_id_form_skips_names :
  let objs := [enveloped "c1" "srv-foo"; enveloped "c2" "srv-foo-2"] in
  let services := map Index.service objs in
  let fetch_service :=
    fun _ : Http.Request =>
      Http.mkResponse false "Not Found" "not found: service"
                      (Index.service (enveloped "" "")) in
  let r :=
    Index.determineService literal_regexp fetch_service (scripted [objs])
                           2 "key" "srv-foo" in
  Http.outcome (Index.renderGetPaged (scripted [objs]) "key" "services" 2 [])
  = Js.Returned objs
  /\ filter (fun s => Js.includes "srv-foo" (Index.name s)) services
     = services
  /\ List.length services = 2
  /\ Index.name (Index.service (enveloped "c1" "srv-foo")) = "srv-foo"
  /\ (forall s, Http.outcome r <> Js.Returned s)
  /\ map Http.req_url (Http.sent r)
     = ["https://api.render.com/v1//services/srv-foo?limit=100"].
Proof.
  repeat split. intros s. vm_compute. discriminate.
Qed.



(** C10: for an input that starts with ["srv-"], [determineService] is
    [getService]: it sends the one request for the service with that id,
    its outcome is decided by the answer to that request, and neither the
    listing nor the pattern matcher has a part in it, whatever services
    exist under that name. *)
Theorem determineService_id_path
        (regexp : string -> option (string -> bool))
        (fetch_service : Http.Request -> Http.Response Index.Service)
        (fetch_services :
           nat -> Http.Request -> Http.Response (list Index.ServiceCursor))
        (steps : nat) (apiKey rest : string) :
  let serviceIDOrName := "srv-" ++ rest in
  let r :=
    Index.determineService regexp fetch_service fetch_services steps
                           apiKey serviceIDOrName in
  let req :=
    Http.mkRequest "GET"
      (Index.RENDER_API ++ "/" ++ "/services/" ++ serviceIDOrName
         ++ "?" ++ "limit=100")
      (Index.make_headers apiKey) None in
  Index.isServiceID serviceIDOrName = true
  /\ r = Index.getService fetch_service apiKey serviceIDOrName
  /\ Http.sent r = [req]
  /\ Http.outcome r
     = (if Http.ok (fetch_service req) then
          Js.Returned (Http.json (fetch_service req))
        else
          Js.Threw (Js.Error
            (Index.request_error "Unable to fetch data from render "
               (Http.statusText (fetch_service req)) (Http.req_url req)
               apiKey (Http.text (fetch_service req)))))
  /\ (forall regexp' fetch_services' steps',
        Index.determineService regexp' fetch_service fetch_services' steps'
                               apiKey serviceIDOrName
        = r).
Proof.
  intros serviceIDOrName r req.
  assert (Hid : Index.isServiceID serviceIDOrName = true)
    by apply startsWith_append.
  assert (Hr : forall regexp' fetch_services' steps',
             Index.determineService regexp' fetch_service fetch_services'
                                    steps' apiKey serviceIDOrName
             = Index.getService fetch_service apiKey serviceIDOrName)
    by (intros; unfold Index.determineService; now rewrite Hid).
  split; [exact Hid|]. split; [apply Hr|]. unfold r. rewrite Hr.
  split; [reflexivity|]. split.
  - unfold Index.getService, Index.renderGet. cbn [Http.outcome].
    fold req. change (Index.get_url ("/services/" ++ serviceIDOrName) [])
      with (Http.req_url req).
    change (Http.mkRequest "GET" (Http.req_url req)
                           (Index.make_headers apiKey) None) with req.
    now destruct (Http.ok (fetch_service req)).
  - intros. apply Hr.
Qed.


(** * Further properties of [src/index.ts] *)

(** ** Headers and methods *)

Lemma paged_loop_requests {T : Type} `{Cursored T}
      (fetch : nat -> Http.Request -> Http.Response (list T))
      (token method : string) (steps : nat) :
  forall n fp objs req,
    In req (snd (Index.paged_loop fetch token method steps n fp objs)) ->
    exists fp', req = Index.paged_request token method fp'.
Proof.
  induction steps as [|steps IH]; intros n fp objs req Hin; [destruct Hin|].
  cbn [Index.paged_loop] in Hin.
  destruct (Index.paged_turn fetch token method n fp objs)
    as [objs'|fp' objs'|e]; cbn [snd] in Hin.
  - destruct Hin as [<-|[]]. now exists fp.
  - destruct Hin as [<-|Hin]; [now exists fp | exact (IH _ _ _ _ Hin)].
  - destruct Hin as [<-|[]]. now exists fp.
Qed.

(** X1: every request of [renderGet], [renderPost] and [renderGetPaged]
    carries the same two possible headers: [Content-Type:
    application/json] always, and [Authorization: Bearer <token>] exactly
    when the token is not the empty string; the first and the last send
    [GET], the second [POST] with the body object as given. *)
Theorem requests_carry_headers (token method : string) (params : Js.Obj) :
  (forall (T : Type) (fetch : Http.Request -> Http.Response T) req,
      In req (Http.sent (Index.renderGet fetch token method params)) ->
      Http.req_method req = "GET"
      /\ Http.req_headers req = Index.make_headers token
      /\ Http.req_body req = None)
  /\ (forall (T : Type) (fetch : Http.Request -> Http.Response T) req,
      In req (Http.sent (Index.renderPost fetch token method params)) ->
      Http.req_method req = "POST"
      /\ Http.req_headers req = Index.make_headers token
      /\ Http.req_body req = Some params)
  /\ (forall (T : Type) (HT : Cursored T)
             (fetch : nat -> Http.Request -> Http.Response (list T))
             (steps : nat) req,
      In req (Http.sent (Index.renderGetPaged fetch token method steps
                                             params)) ->
      Http.req_method req = "GET"
      /\ Http.req_headers req = Index.make_headers token
      /\ Http.req_body req = None)
  /\ In ("Content-Type", "application/json") (Index.make_headers token)
  /\ (forall name v,
        In (name, v) (Index.make_headers token) ->
        (name = "Content-Type" /\ v = "application/json")
        \/ (name = "Authorization" /\ v = "Bearer " ++ token /\ token <> ""))
  /\ (token <> "" ->
      In ("Authorization", "Bearer " ++ token) (Index.make_headers token)).
Proof.
  repeat apply conj.
  - intros T fetch req [<-|[]]. now repeat split.
  - intros T fetch req [<-|[]]. now repeat split.
  - intros T HT fetch steps req Hin.
    unfold Index.renderGetPaged in Hin. cbn [Http.sent] in Hin.
    destruct (paged_loop_requests fetch token method steps _ _ _ _ Hin)
      as [fp' ->].
    now repeat split.
  - now left.
  - intros name v. unfold Index.make_headers.
    destruct (String.eqb_spec token "") as [E|E]; cbn [negb].
    + intros [[= <- <-]|[]]. now left.
    + intros [[= <- <-]|[[= <- <-]|[]]]; [now left | now right].
  - intros Hne. unfold Index.make_headers.
    destruct (String.eqb_spec token "") as [E|E]; [contradiction|].
    cbn. right. now left.
Qed.

Lemma requests_carry_headers_witness :
  In ("Authorization", "Bearer " ++ "rnd_key")
     (Index.make_headers "rnd_key").
Proof.
  apply (proj2 (proj2 (proj2 (proj2 (proj2
           (requests_carry_headers "rnd_key" "services" [])))))).
  discriminate.
Defined.

(** ** The masked token *)

Lemma substring_drop (s : string) :
  forall k, exists hidden,
    s = hidden ++ String.substring k (String.length s - k) s
    /\ String.length hidden = Nat.min k (String.length s).
Proof.
  induction s as [|c s IH]; intros k.
  - exists "". destruct k; now split.
  - destruct k as [|k].
    + exists "". cbn [String.length Nat.sub]. split; [|reflexivity].
      cbn [append String.substring]. f_equal.
      destruct (IH 0) as (h & Hs & Hl). destruct h; [|discriminate].
      rewrite Nat.sub_0_r in Hs. exact Hs.
    + destruct (IH k) as (h & Hs & Hl). exists (String c h).
      cbn [String.length Nat.sub String.substring append Nat.min].
      split; [now rewrite <- Hs | now rewrite Hl].
Qed.

Lemma append_length (a b : string) :
  String.length (a ++ b) = String.length a + String.length b.
Proof. induction a as [|c a IH]; simpl; [reflexivity | now rewrite IH]. Qed.

(** X2: [token.slice(-n)] is the end of the token: the token is some
    hidden part followed by it, it has [n] characters when the token has
    that many and is the whole token otherwise, and the hidden part is what
    remains. *)
Theorem slice_last_suffix (n : nat) (s : string) :
  exists hidden,
    s = hidden ++ Js.slice_last n s
    /\ String.length (Js.slice_last n s) = Nat.min n (String.length s)
    /\ String.length hidden = String.length s - n.
Proof.
  unfold Js.slice_last. cbv zeta.
  destruct (substring_drop s (String.length s - n)) as (h & Hs & Hl).
  exists h. split; [exact Hs|].
  assert (Hh : String.length h = String.length s - n) by lia.
  split; [|exact Hh].
  apply (f_equal String.length) in Hs. rewrite append_length in Hs. lia.
Qed.

(** X3: a token of six characters or fewer is not masked at all: the
    request error prints it whole after the five asterisks. *)
Theorem short_token_printed_whole (what st url token body : string) :
  String.length token <= 6 ->
  Js.slice_last 6 token = token
  /\ Contains ("api key: *****" ++ token)
              (Index.request_error what st url token body).
Proof.
  intros Hlen.
  assert (E : Js.slice_last 6 token = token).
  { destruct (slice_last_suffix 6 token) as (h & Hs & _ & Hl).
    replace (String.length token - 6) with 0 in Hl by lia.
    destruct h; [|discriminate]. now symmetry. }
  split; [exact E|]. unfold Index.request_error. rewrite E.
  do 6 apply Contains_append_r.
  change ("api key: *****" ++ token ++ Js.nl ++ body)
    with (("api key: *****" ++ token) ++ Js.nl ++ body).
  apply Contains_head.
Qed.

Lemma short_token_printed_whole_witness :
  Js.slice_last 6 "abc" = "abc"
  /\ Contains ("api key: *****" ++ "abc")
              (Index.request_error "Unable to fetch data from render "
                 "Unauthorized" "https://api.render.com/v1/services?limit=100"
                 "abc" "").
Proof.
  apply (short_token_printed_whole
           "Unable to fetch data from render " "Unauthorized"
           "https://api.render.com/v1/services?limit=100" "abc" "").
  repeat constructor.
Defined.

(** ** Calling again with the same bag *)

Lemma default_limit_idempotent (params : Js.Obj) :
  Index.default_limit (Index.default_limit params)
  = Index.default_limit params.
Proof.
  unfold Index.default_limit at 2 3.
  destruct (Js.truthy (Js.get params "limit")) eqn:Ht; cbn [negb].
  - unfold Index.default_limit. now rewrite Ht.
  - unfold Index.default_limit. now rewrite get_set_same.
Qed.

(** X4: the bag a call leaves behind can be passed again: a second
    [renderGet] or [renderGetPaged] with it sends the same requests, has
    the same outcome and leaves it as it is.  In particular no cursor of
    the first paged call is carried into the second. *)
Theorem second_call_with_same_bag (token method : string) (params : Js.Obj) :
  (forall (T : Type) (fetch : Http.Request -> Http.Response T),
      let first := Index.renderGet fetch token method params in
      Index.renderGet fetch token method (Http.bag first) = first)
  /\ (forall (T : Type) (HT : Cursored T)
             (fetch : nat -> Http.Request -> Http.Response (list T))
             (steps : nat),
      let first := Index.renderGetPaged fetch token method steps params in
      Index.renderGetPaged fetch token method steps (Http.bag first) = first).
Proof.
  split.
  - intros T fetch first. unfold first, Index.renderGet.
    cbn [Http.bag]. unfold Index.get_url, Index.get_searchParams.
    now rewrite !default_limit_idempotent.
  - intros T HT fetch steps first. unfold first, Index.renderGetPaged.
    cbn [Http.bag]. now rewrite !default_limit_idempotent.
Qed.

(** ** Identifier predicates of [src/index.ts] *)

Lemma index_classifiers_exclusive_witness :
  accepting Index.classifiers ("red" ++ "-" ++ "abc") = 1.
Proof.
  apply (index_classifiers_exclusive "red" "abc").
  do 4 right. left. reflexivity.
Defined.

(** X6: no string is accepted by two of the eight predicates of
    [src/index.ts], and each predicate accepts exactly the strings that
    begin with its prefix and a hyphen. *)
Theorem index_classifiers_disjoint (s : string) :
  accepting Index.classifiers s <= 1
  /\ (Index.isServiceID s = true <-> exists rest, s = "srv-" ++ rest)
  /\ (Index.isRedisID s = true <-> exists rest, s = "red-" ++ rest)
  /\ (Index.isPostgresID s = true <-> exists rest, s = "dpg-" ++ rest).
Proof.
  split.
  - unfold accepting, Index.classifiers. cbn [filter].
    destruct (Index.isServiceID s) eqn:E1;
      [apply (prefix_split "srv-" s) in E1 as [r ->]; cbn; lia|].
    destruct (Index.isEnvironmentID s) eqn:E2;
      [apply (prefix_split "evm-" s) in E2 as [r ->]; cbn; lia|].
    destruct (Index.isCronID s) eqn:E3;
      [apply (prefix_split "crn-" s) in E3 as [r ->]; cbn; lia|].
    destruct (Index.isJobID s) eqn:E4;
      [apply (prefix_split "job-" s) in E4 as [r ->]; cbn; lia|].
    destruct (Index.isRedisID s) eqn:E5;
      [apply (prefix_split "red-" s) in E5 as [r ->]; cbn; lia|].
    destruct (Index.isPostgresID s) eqn:E6;
      [apply (prefix_split "dpg-" s) in E6 as [r ->]; cbn; lia|].
    destruct (Index.isEnvironmentGroupID s) eqn:E7;
      [apply (prefix_split "evg-" s) in E7 as [r ->]; cbn; lia|].
    destruct (Index.isRegistryCredentialID s); cbn; lia.
  - repeat split; try (apply prefix_split);
      intros [rest ->]; apply prefix_append.
Qed.

(** ** More on the pagination loop *)



Lemma paged_loop_frame {T : Type} `{Cursored T}
      (fetch : nat -> Http.Request -> Http.Response (list T))
      (token method : string) (steps : nat) :
  forall n fp objs req,
    Js.wf fp = true ->
    In req (snd (Index.paged_loop fetch token method steps n fp objs)) ->
    exists fp',
      req = Index.paged_request token method fp'
      /\ Js.wf fp' = true
      /\ forall k, k <> "cursor" ->
           Js.get fp' k = Js.get fp k /\ Js.has fp' k = Js.has fp k.
Proof.
  induction steps as [|steps IH]; intros n fp objs req Hwf Hin;
    [destruct Hin|].
  cbn [Index.paged_loop] in Hin.
  pose proof (paged_turn_spec fetch token method n fp objs) as Hturn.
  cbv zeta in Hturn.
  assert (Hhere : exists fp',
             Index.paged_request token method fp
             = Index.paged_request token method fp'
             /\ Js.wf fp' = true
             /\ forall k, k <> "cursor" ->
                  Js.get fp' k = Js.get fp k /\ Js.has fp' k = Js.has fp k)
    by (exists fp; now repeat split).
  destruct (Index.paged_turn fetch token method n fp objs)
    as [objs'|fp' objs'|e]; cbn [snd] in Hin.
  - destruct Hin as [<-|[]]. exact Hhere.
  - destruct Hin as [<-|Hin]; [exact Hhere|].
    destruct Hturn as (_ & page & x & _ & -> & _).
    destruct (IH _ _ _ _ (wf_set fp "cursor" _ Hwf) Hin)
      as (fp2 & -> & Hw2 & Hsame).
    exists fp2. split; [reflexivity|]. split; [exact Hw2|].
    intros k Hk. destruct (Hsame k Hk) as [-> ->].
    rewrite get_set_other, has_set by congruence.
    assert (E : ("cursor" =? k) = false)
      by (apply String.eqb_neq; congruence).
    now rewrite E, orb_false_r.
  - destruct Hin as [<-|[]]. exact Hhere.
Qed.

(** X8: from one request of a paged call to the next only the [cursor]
    parameter changes: every request carries, under every other name, the
    parameters of the first request, so the limit and the caller's filters
    stay in force on every page. *)
Theorem renderGetPaged_only_cursor_changes {T : Type} `{Cursored T}
        (fetch : nat -> Http.Request -> Http.Response (list T))
        (token method : string) (steps : nat) (params : Js.Obj)
        (i : nat) (first req : Http.Request) :
  let r := Index.renderGetPaged fetch token method steps params in
  nth_error (Http.sent r) 0 = Some first ->
  nth_error (Http.sent r) i = Some req ->
  exists query0 query,
    Http.req_url first = Index.RENDER_API ++ "/" ++ method ++ "?" ++ query0
    /\ Http.req_url req = Index.RENDER_API ++ "/" ++ method ++ "?" ++ query
    /\ forall k, k <> "cursor" ->
         URLSearchParams.getAll (URLSearchParams.parse query) k
         = URLSearchParams.getAll (URLSearchParams.parse query0) k.
Proof.
  intros r H0 Hi. unfold r, Index.renderGetPaged in H0, Hi.
  cbn [Http.sent] in H0, Hi.
  set (fp0 := Index.reduce_entries
                (filter Index.keep_paged
                        (Js.entries (Index.default_limit params)))) in *.
  assert (Hw0 : Js.wf fp0 = true) by apply wf_reduce_entries.
  destruct (paged_loop_frame fetch token method steps 0 fp0 [] first Hw0
              (nth_error_In _ _ H0)) as (f0 & -> & Hwf0 & Hs0).
  destruct (paged_loop_frame fetch token method steps 0 fp0 [] req Hw0
              (nth_error_In _ _ Hi)) as (f1 & -> & Hwf1 & Hs1).
  exists (URLSearchParams.toString (URLSearchParams.of_record f0)),
         (URLSearchParams.toString (URLSearchParams.of_record f1)).
  split; [reflexivity|]. split; [reflexivity|].
  intros k Hk. rewrite !parse_toString, !getAll_of_record by assumption.
  destruct (Hs0 k Hk) as [-> ->]. destruct (Hs1 k Hk) as [-> ->].
  reflexivity.
Qed.

Lemma renderGetPaged_only_cursor_changes_witness :
  let pages := [[enveloped "c1" "a"]; [enveloped "c2" "b"]; []] in
  let r :=
    Index.renderGetPaged (scripted pages) "key" "services" 5
                         [("limit", Js.Str "20")] in
  exists query0 query,
    "https://api.render.com/v1/services?limit=20"
    = Index.RENDER_API ++ "/" ++ "services" ++ "?" ++ query0
    /\ "https://api.render.com/v1/services?limit=20&cursor=c2"
       = Index.RENDER_API ++ "/" ++ "services" ++ "?" ++ query
    /\ forall k, k <> "cursor" ->
         URLSearchParams.getAll (URLSearchParams.parse query) k
         = URLSearchParams.getAll (URLSearchParams.parse query0) k.
Proof.
  intros pages r.
  apply (renderGetPaged_only_cursor_changes
           (scripted pages) "key" "services" 5 [("limit", Js.Str "20")] 2
           (Http.mkRequest "GET" "https://api.render.com/v1/services?limit=20"
                           (Index.make_headers "key") None)
           (Http.mkRequest "GET"
              "https://api.render.com/v1/services?limit=20&cursor=c2"
              (Index.make_headers "key") None));
    reflexivity.
Defined.




Lemma skipn_nth {A : Type} (l : list (list A)) :
  forall n,
    (skipn n l = [] /\ nth n l [] = [])
    \/ (skipn n l = nth n l [] :: skipn (S n) l).
Proof.
  induction l as [|x l IH]; intros n.
  - left. now destruct n.
  - destruct n as [|n]; [now right|]. exact (IH n).
Qed.

Lemma paged_loop_scripted {T : Type} `{Cursored T} (pages : list (list T))
      (token method : string) (steps : nat) :
  forall n fp objs,
    List.length (pages_before_empty (skipn n pages)) < steps ->
    fst (Index.paged_loop (scripted pages) token method steps n fp objs)
    = Js.Returned (objs ++ concat (pages_before_empty (skipn n pages)))%list
    /\ List.length
         (snd (Index.paged_loop (scripted pages) token method steps n fp objs))
       = S (List.length (pages_before_empty (skipn n pages))).
Proof.
  induction steps as [|steps IH]; intros n fp objs Hlt; [lia|].
  cbn [Index.paged_loop].
  pose proof (paged_turn_spec (scripted pages) token method n fp objs)
    as Hturn.
  cbv zeta in Hturn. cbn [scripted Http.ok Http.json] in Hturn.
  destruct (Index.paged_turn (scripted pages) token method n fp objs)
    as [objs'|fp' objs'|e]; cbn [fst snd List.length].
  - destruct Hturn as (_ & He & ->).
    destruct (skipn_nth pages n) as [[-> _]| ->]; [|rewrite He];
      cbn; now rewrite app_nil_r.
  - destruct Hturn as (_ & page & x & Hj & _ & ->).
    destruct (skipn_nth pages n) as [[_ E]|E];
      [rewrite E in Hj; now destruct page|].
    rewrite E in Hlt |- *. rewrite Hj in Hlt |- *.
    assert (Hne : pages_before_empty ((page ++ [x])%list :: skipn (S n) pages)
                  = (page ++ [x])%list
                      :: pages_before_empty (skipn (S n) pages))
      by (now destruct page).
    rewrite Hne in Hlt |- *. cbn [List.length concat] in Hlt |- *.
    destruct (IH (S n) fp' (objs ++ page ++ [x])%list) as [-> ->]; [lia|].
    now rewrite <- app_assoc.
  - destruct Hturn as [Hok _]. discriminate.
Qed.

(** X10: against a server that answers from a script of pages,
    [renderGetPaged] returns the elements of the pages that come before
    the first empty page, in order, after one request for each of them and
    one more; pages written after an empty page are never asked for. *)
Theorem renderGetPaged_scripted {T : Type} `{Cursored T}
        (pages : list (list T)) (token method : string) (steps : nat)
        (params : Js.Obj) :
  List.length (pages_before_empty pages) < steps ->
  let r := Index.renderGetPaged (scripted pages) token method steps params in
  Http.outcome r = Js.Returned (concat (pages_before_empty pages))
  /\ List.length (Http.sent r) = S (List.length (pages_before_empty pages)).
Proof.
  intros Hlt r. unfold r, Index.renderGetPaged.
  cbn [Http.outcome Http.sent].
  exact (paged_loop_scripted pages token method steps 0 _ [] Hlt).
Qed.

Lemma renderGetPaged_scripted_witness :
  let pages :=
    [[enveloped "c1" "a"]; []; [enveloped "c2" "never-read"]] in
  let r := Index.renderGetPaged (scripted pages) "key" "services" 4 [] in
  Http.outcome r = Js.Returned [enveloped "c1" "a"]
  /\ List.length (Http.sent r) = 2.
Proof.
  intros pages r.
  apply (renderGetPaged_scripted pages "key" "services" 4 []).
  repeat constructor.
Defined.


(** ** The limit parameter of [renderGet] *)




(** ** Metrics *)

Lemma filter_length_split {A : Type} (f : A -> bool) (l : list A) :
  List.length (filter f l) + List.length (filter (fun x => negb (f x)) l)
  = List.length l.
Proof.
  induction l as [|x l IH]; [reflexivity|]. cbn [filter].
  destruct (f x); cbn [negb List.length]; lia.
Qed.

(** X12: [activeConnections] asks only for the resources whose id begins
    with ["red-"] or ["dpg-"], in the order given, in one comma-joined
    [resource] parameter; when no id is of that form it still sends its one
    request, without a [resource] parameter.  Every resource is either
    asked for or skipped. *)
Theorem activeConnections_valid_resources
        (Number : Type) (Number_toString : Number -> string)
        (fetch : Http.Request
                 -> Http.Response (list (Endpoints.MetricResponse Number)))
        (token : string) (resources : list string)
        (startTime endTime : option string)
        (resolutionSeconds : option Number) :
  let r :=
    Endpoints.activeConnections Number Number_toString fetch token resources
                                startTime endTime resolutionSeconds in
  (exists query,
      map Http.req_url (Http.sent r)
      = [Index.RENDER_API ++ "/" ++ "metrics/active-connections" ++ "?"
           ++ query]
      /\ URLSearchParams.getAll (URLSearchParams.parse query) "resource"
         = match Endpoints.validResources resources with
           | [] => []
           | ids => [Js.join "," ids]
           end)
  /\ (forall id,
        In id (Endpoints.validResources resources)
        <-> In id resources
            /\ exists rest, id = "red-" ++ rest \/ id = "dpg-" ++ rest)
  /\ List.length (Endpoints.validResources resources)
     + List.length (Endpoints.skippedResources resources)
     = List.length resources.
Proof.
  intros r. repeat apply conj.
  - eexists. split; [reflexivity|]. rewrite parse_toString.
    rewrite getAll_get_searchParams by reflexivity. cbv zeta.
    destruct endTime, startTime, resolutionSeconds,
      (Endpoints.validResources resources); reflexivity.
  - intros id. unfold Endpoints.validResources. rewrite filter_In.
    split; intros [Hin Hid]; (split; [exact Hin|]).
    + apply orb_true_iff in Hid as [Hid|Hid];
        apply prefix_split in Hid as [rest ->]; exists rest; tauto.
    + destruct Hid as [rest [-> | ->]]; apply orb_true_iff;
        [left | right]; apply prefix_append.
  - unfold Endpoints.validResources, Endpoints.skippedResources.
    rewrite <- (filter_length_split
                  (fun id => Index.isRedisID id || Index.isPostgresID id)
                  resources).
    f_equal. f_equal. apply filter_ext. intros id.
    now rewrite negb_orb.
Qed.

(** X13: [instanceCount], [cpuUsage], [memoryUsage], [bandwidth],
    [HTTPLatency] and [HTTPRequests] each send one request to their own
    path, whose
    parameters are the arguments that were given (an optional argument left
    out, or an array that is empty, gives none), in the order of the bag it
    builds, followed by [limit=100]. *)
Theorem metrics_requests
        (Number : Type) (Number_toString : Number -> string)
        (fetch : Http.Request
                 -> Http.Response (list (Endpoints.MetricResponse Number)))
        (token : string) (resources : list string)
        (startTime endTime aggregationMethod : option string)
        (resolutionSeconds : option Number)
        (instances hosts paths : option (list string))
        (quantile : string) (aggregateBy : option Endpoints.AggregateBy) :
  let seconds := option_map Number_toString resolutionSeconds in
  map Http.req_url
      (Http.sent (Endpoints.instanceCount Number Number_toString fetch token
                    resources startTime endTime resolutionSeconds))
  = [metric_url "instance-count"
       (given "endTime" endTime ++ given "resolutionSeconds" seconds
          ++ given_list "resource" (Some resources)
          ++ given "startTime" startTime)%list]
  /\ map Http.req_url
         (Http.sent (Endpoints.cpuUsage Number Number_toString fetch token
                       resources startTime endTime resolutionSeconds
                       instances aggregationMethod))
     = [metric_url "cpu"
          (given "aggregationMethod" aggregationMethod
             ++ given "endTime" endTime ++ given_list "instance" instances
             ++ given "resolutionSeconds" seconds
             ++ given_list "resource" (Some resources)
             ++ given "startTime" startTime)%list]
  /\ map Http.req_url
         (Http.sent (Endpoints.memoryUsage Number Number_toString fetch token
                       resources startTime endTime resolutionSeconds
                       instances))
     = [metric_url "memory"
          (given "endTime" endTime ++ given "resolutionSeconds" seconds
             ++ given_list "resource" (Some resources)
             ++ given "startTime" startTime
             ++ given_list "instance" instances)%list]
  /\ map Http.req_url
         (Http.sent (Endpoints.bandwidth Number fetch token resources
                       startTime endTime))
     = [metric_url "bandwidth"
          (given "endTime" endTime ++ given_list "resource" (Some resources)
             ++ given "startTime" startTime)%list]
  /\ map Http.req_url
         (Http.sent (Endpoints.HTTPLatency Number Number_toString fetch token
                       resources quantile hosts startTime endTime paths
                       resolutionSeconds))
     = [metric_url "http-latency"
          (given "endTime" endTime ++ given_list "host" hosts
             ++ given_list "path" paths ++ [("quantile", quantile)]
             ++ given "resolutionSeconds" seconds
             ++ given_list "resource" (Some resources)
             ++ given "startTime" startTime)%list]
  /\ map Http.req_url
         (Http.sent (Endpoints.HTTPRequests Number Number_toString fetch token
                       resources hosts startTime endTime paths
                       resolutionSeconds aggregateBy))
     = [metric_url "http-requests"
          (given "aggregateBy"
                 (option_map Endpoints.AggregateBy_text aggregateBy)
             ++ given "endTime" endTime ++ given_list "host" hosts
             ++ given_list "path" paths
             ++ given "resolutionSeconds" seconds
             ++ given_list "resource" (Some resources)
             ++ given "startTime" startTime)%list].
Proof.
  intros seconds. unfold seconds. repeat apply conj.
  - destruct endTime, startTime, resolutionSeconds, resources; reflexivity.
  - destruct endTime, startTime, resolutionSeconds, resources,
      aggregationMethod, instances as [[|]|]; reflexivity.
  - destruct endTime, startTime, resolutionSeconds, resources,
      instances as [[|]|]; reflexivity.
  - destruct endTime, startTime, resources; reflexivity.
  - destruct endTime, startTime, resolutionSeconds, resources,
      hosts as [[|]|], paths as [[|]|]; reflexivity.
  - destruct endTime, startTime, resolutionSeconds, resources,
      hosts as [[|]|], paths as [[|]|], aggregateBy; reflexivity.
Qed.


(** ** More on the resolver *)

Lemma filter_matching_valid {A : Type}
      (regexp : string -> option (string -> bool)) (name_of : A -> string)
      (pattern : string) (test : string -> bool) (xs : list A) :
  regexp pattern = Some test ->
  Endpoints.filter_matching regexp name_of pattern xs
  = Js.Returned (filter (fun x => test (name_of x)) xs).
Proof.
  intros Hp. unfold Endpoints.filter_matching. rewrite Hp.
  now destruct xs.
Qed.

Lemma getServices_sent
      (regexp : string -> option (string -> bool))
      (fetch_services :
         nat -> Http.Request -> Http.Response (list Index.ServiceCursor))
      (steps : nat) (token nameFilter : string) :
  Http.sent (Index.getServices regexp fetch_services steps token nameFilter)
  = Http.sent (Index.renderGetPaged fetch_services token "services" steps []).
Proof.
  unfold Index.getServices.
  now destruct (Http.outcome
                  (Index.renderGetPaged fetch_services token "services"
                                        steps [])).
Qed.

(** X14: [getServices] filters on the client: whatever the name filter, it
    sends the requests of the plain listing, which starts at
    [services?limit=100] and carries no name; without a filter it returns
    every listed service, with a valid pattern the listed services whose
    name matches, both in the order of the listing. *)
Theorem getServices_filters_client_side
        (regexp : string -> option (string -> bool))
        (fetch_services :
           nat -> Http.Request -> Http.Response (list Index.ServiceCursor))
        (steps : nat) (token nameFilter : string) :
  let listing :=
    Index.renderGetPaged fetch_services token "services" steps [] in
  let r := Index.getServices regexp fetch_services steps token nameFilter in
  Http.sent r = Http.sent listing
  /\ (forall req, nth_error (Http.sent r) 0 = Some req ->
        Http.req_url req = "https://api.render.com/v1/services?limit=100")
  /\ (forall objs,
        Http.outcome listing = Js.Returned objs ->
        Http.outcome
          (Index.getServices regexp fetch_services steps token "")
        = Js.Returned (map Index.service objs))
  /\ (forall objs test,
        Http.outcome listing = Js.Returned objs ->
        nameFilter <> "" ->
        regexp nameFilter = Some test ->
        Http.outcome r
        = Js.Returned (filter (fun s => test (Index.name s))
                              (map Index.service objs))).
Proof.
  intros listing r. split; [apply getServices_sent|]. split; [|split].
  - intros req. unfold r. rewrite getServices_sent.
    unfold Index.renderGetPaged. cbn [Http.sent].
    destruct steps as [|steps]; [discriminate|].
    rewrite paged_loop_head. cbn [nth_error]. now intros [= <-].
  - intros objs Hl. unfold Index.getServices. fold listing. now rewrite Hl.
  - intros objs test Hl Hne Hp. unfold r, Index.getServices. fold listing.
    rewrite Hl. cbn [Http.outcome].
    apply String.eqb_neq in Hne. rewrite Hne. cbn [negb].
    exact (filter_matching_valid regexp Index.name nameFilter test _ Hp).
Qed.

Lemma getServices_filters_client_side_witness :
  Http.outcome
    (Index.getServices literal_regexp
       (scripted [[enveloped "c1" "api-prod"; enveloped "c2" "web";
                   enveloped "c3" "api-staging"]])
       2 "key" "api-")
  = Js.Returned
      (filter (fun s => Js.includes "api-" (Index.name s))
              (map Index.service
                   [enveloped "c1" "api-prod"; enveloped "c2" "web";
                    enveloped "c3" "api-staging"])).
Proof.
  apply (proj2 (proj2 (proj2
           (getServices_filters_client_side
              literal_regexp
              (scripted [[enveloped "c1" "api-prod"; enveloped "c2" "web";
                          enveloped "c3" "api-staging"]])
              2 "key" "api-")))).
  - reflexivity.
  - discriminate.
  - reflexivity.
Defined.

(** X15: an input that is not a valid pattern makes the name filter throw
    a [SyntaxError] as soon as there is a service to test; when the listing
    is empty nothing is tested, so [getServices] returns the empty list and
    [determineService] reports that no service was found. *)
Theorem invalid_pattern_throws_on_first_service
        (regexp : string -> option (string -> bool))
        (fetch_service : Http.Request -> Http.Response Index.Service)
        (fetch_services :
           nat -> Http.Request -> Http.Response (list Index.ServiceCursor))
        (steps : nat) (apiKey serviceIDOrName : string)
        (objs : list Index.ServiceCursor) :
  regexp serviceIDOrName = None ->
  serviceIDOrName <> "" ->
  Index.isServiceID serviceIDOrName = false ->
  Http.outcome
    (Index.renderGetPaged fetch_services apiKey "services" steps [])
  = Js.Returned objs ->
  let listed :=
    Index.getServices regexp fetch_services steps apiKey serviceIDOrName in
  let r :=
    Index.determineService regexp fetch_service fetch_services steps
                           apiKey serviceIDOrName in
  (objs = [] ->
   Http.outcome listed = Js.Returned []
   /\ Http.outcome r
      = Js.Threw (Js.Error
                    ("No services found with ID or name "
                       ++ serviceIDOrName)))
  /\ (objs <> [] ->
      Http.outcome listed = Js.Threw (Js.SyntaxError serviceIDOrName)
      /\ Http.outcome r = Js.Threw (Js.SyntaxError serviceIDOrName)).
Proof.
  intros Hp Hne Hid Hl listed r.
  assert (Hlisted : Http.outcome listed
                    = match objs with
                      | [] => Js.Returned []
                      | _ :: _ => Js.Threw (Js.SyntaxError serviceIDOrName)
                      end).
  { unfold listed, Index.getServices. rewrite Hl. cbn [Http.outcome].
    apply String.eqb_neq in Hne. rewrite Hne. cbn [negb].
    unfold Index.filter_by_name. rewrite Hp. now destruct objs. }
  assert (Hr : Http.outcome r
               = match Http.outcome listed with
                 | Js.Returned [] =>
                     Js.Threw (Js.Error
                                 (Index.not_found_message serviceIDOrName))
                 | Js.Returned (_ :: _) => Http.outcome r
                 | Js.Threw e => Js.Threw e
                 | Js.Running => Js.Running
                 end).
  { unfold r, Index.determineService. rewrite Hid. fold listed. cbv zeta.
    destruct (Http.outcome listed) as [[|s1 [|s2 l]]|e|]; try reflexivity. }
  split.
  - intros ->. rewrite Hr, Hlisted. now split.
  - intros Hobjs. destruct objs as [|o objs]; [contradiction|].
    rewrite Hr, Hlisted. now split.
Qed.

Lemma invalid_pattern_throws_on_first_service_witness :
  Http.outcome
    (Index.getServices literal_or_invalid
       (scripted [[enveloped "c1" "web"]]) 2 "key" "web(")
  = Js.Threw (Js.SyntaxError "web(")
  /\ Http.outcome
       (Index.determineService literal_or_invalid
          (fun _ => Http.mkResponse false "Not Found" ""
                      (Index.service (enveloped "" "")))
          (scripted [[enveloped "c1" "web"]]) 2 "key" "web(")
     = Js.Threw (Js.SyntaxError "web(").
Proof.
  apply (proj2
           (invalid_pattern_throws_on_first_service
              literal_or_invalid
              (fun _ => Http.mkResponse false "Not Found" ""
                          (Index.service (enveloped "" "")))
              (scripted [[enveloped "c1" "web"]]) 2 "key" "web("
              [enveloped "c1" "web"]
              eq_refl ltac:(discriminate) eq_refl eq_refl)).
  discriminate.
Defined.

(** X16: a service that [determineService] returns for an input that is not
    of service-ID form is one of the listed services, its name matches the
    input as a pattern, and it is either the only match or named exactly
    as the input. *)
Theorem determineService_returns_listed_match
        (regexp : string -> option (string -> bool))
        (fetch_service : Http.Request -> Http.Response Index.Service)
        (fetch_services :
           nat -> Http.Request -> Http.Response (list Index.ServiceCursor))
        (steps : nat) (apiKey serviceIDOrName : string)
        (objs : list Index.ServiceCursor) (test : string -> bool)
        (s : Index.Service) :
  Index.isServiceID serviceIDOrName = false ->
  Http.outcome
    (Index.renderGetPaged fetch_services apiKey "services" steps [])
  = Js.Returned objs ->
  regexp serviceIDOrName = Some test ->
  (serviceIDOrName = "" -> forall n, test n = true) ->
  Http.outcome
    (Index.determineService regexp fetch_service fetch_services steps
                            apiKey serviceIDOrName)
  = Js.Returned s ->
  let matching :=
    filter (fun s => test (Index.name s)) (map Index.service objs) in
  In s (map Index.service objs)
  /\ test (Index.name s) = true
  /\ (matching = [s] \/ Index.name s = serviceIDOrName).
Proof.
  intros Hid Hl Hp He Hr matching.
  rewrite (determineService_by_name regexp fetch_service fetch_services steps
             apiKey serviceIDOrName objs test Hl Hp He Hid) in Hr.
  fold matching in Hr.
  assert (Hin : In s matching /\ (matching = [s]
                                  \/ Index.name s = serviceIDOrName)).
  { destruct matching as [|s1 [|s2 rest]] eqn:Hm; [discriminate| |].
    - injection Hr as ->. split; [now left | now left].
    - cbv beta iota zeta in Hr.
      destruct (find (fun s => Index.name s =? serviceIDOrName)
                     (s1 :: s2 :: rest)) as [exact|] eqn:Hf;
        [|discriminate].
      injection Hr as ->. apply find_some in Hf as [Hi Hname].
      apply String.eqb_eq in Hname. split; [exact Hi | now right]. }
  destruct Hin as [Hin Hwhy]. unfold matching in Hin.
  apply filter_In in Hin as [Hlisted Htest]. now repeat split.
Qed.

Lemma determineService_returns_listed_match_witness :
  let objs := [enveloped "c1" "web"; enveloped "c2" "worker"] in
  In (Index.service (enveloped "c2" "worker")) (map Index.service objs)
  /\ Js.includes "work" "worker" = true
  /\ (filter (fun s => Js.includes "work" (Index.name s))
             (map Index.service objs)
      = [Index.service (enveloped "c2" "worker")]
      \/ Index.name (Index.service (enveloped "c2" "worker")) = "work").
Proof.
  intros objs.
  apply (determineService_returns_listed_match
           literal_regexp
           (fun _ => Http.mkResponse false "Not Found" ""
                       (Index.service (enveloped "" "")))
           (scripted [objs]) 2 "key" "work" objs
           (fun subject => Js.includes "work" subject)
           (Index.service (enveloped "c2" "worker"))
           eq_refl eq_refl eq_refl ltac:(discriminate) eq_refl).
Defined.

(** X17: for an input that is not of service-ID form, [determineService]
    sends the requests of the listing and nothing else, and a listing that
    throws makes it throw the same exception: a request error on any page
    ends the resolution, whatever was listed before. *)
Theorem determineService_propagates_listing_error
        (regexp : string -> option (string -> bool))
        (fetch_service : Http.Request -> Http.Response Index.Service)
        (fetch_services :
           nat -> Http.Request -> Http.Response (list Index.ServiceCursor))
        (steps : nat) (apiKey serviceIDOrName : string) :
  Index.isServiceID serviceIDOrName = false ->
  let listing :=
    Index.renderGetPaged fetch_services apiKey "services" steps [] in
  let r :=
    Index.determineService regexp fetch_service fetch_services steps
                           apiKey serviceIDOrName in
  Http.sent r = Http.sent listing
  /\ (forall e, Http.outcome listing = Js.Threw e ->
        Http.outcome r = Js.Threw e)
  /\ (Http.outcome listing = Js.Running -> Http.outcome r = Js.Running).
Proof.
  intros Hid listing r.
  assert (Hs : Http.sent r
               = Http.sent (Index.getServices regexp fetch_services steps
                                              apiKey serviceIDOrName)).
  { unfold r, Index.determineService. rewrite Hid. cbv zeta.
    destruct (Http.outcome (Index.getServices _ _ _ _ _))
      as [[|s1 [|s2 l]]|e|]; try reflexivity.
    now destruct (find _ _). }
  split; [rewrite Hs; apply getServices_sent|].
  unfold r, Index.determineService, Index.getServices. rewrite Hid.
  fold listing. cbv zeta.
  split; [intros e Hl | intros Hl]; now rewrite Hl.
Qed.

Lemma determineService_propagates_listing_error_witness :
  Http.outcome
    (Index.determineService literal_regexp
       (fun _ => Http.mkResponse true "OK" ""
                   (Index.service (enveloped "" "")))
       unauthorized 3 "key" "web")
  = Js.Threw
      (Js.Error
         (Index.request_error "Unable to fetch data from render "
            "Unauthorized" "https://api.render.com/v1/services?limit=100"
            "key" "invalid api key")).
Proof.
  apply (proj1 (proj2
           (determineService_propagates_listing_error
              literal_regexp
              (fun _ => Http.mkResponse true "OK" ""
                          (Index.service (enveloped "" "")))
              unauthorized 3 "key" "web" eq_refl))).
  reflexivity.
Defined.

(** ** The endpoint wrappers *)

Lemma first_paged_url {T : Type} `{Cursored T}
      (fetch : nat -> Http.Request -> Http.Response (list T))
      (token method : string) (steps : nat) (req : Http.Request) :
  nth_error
    (Http.sent (Index.renderGetPaged fetch token method steps [])) 0
  = Some req ->
  Http.req_url req = Index.RENDER_API ++ "/" ++ method ++ "?limit=100".
Proof.
  unfold Index.renderGetPaged. cbn [Http.sent].
  destruct steps as [|steps]; [discriminate|].
  rewrite paged_loop_head. cbn [nth_error]. now intros [= <-].
Qed.

(** X18: [getEnvVarsForService] and [listJobs] read their endpoint page by
    page, starting at [services/<id>/env-vars?limit=100] and
    [services/<id>/jobs?limit=100]; against a script of pages they return
    the variables, or jobs, of the pages before the first empty one, in
    order and without their cursors; an exception of the listing is theirs
    as well. *)
Theorem paged_wrappers_unwrap (token id : string) (steps : nat) :
  (forall pages : list (list Endpoints.EnvVarCursor),
      List.length (pages_before_empty pages) < steps ->
      Http.outcome
        (Endpoints.getEnvVarsForService (scripted pages) steps token id)
      = Js.Returned
          (map Endpoints.envVar (concat (pages_before_empty pages))))
  /\ (forall pages : list (list Endpoints.JobCursor),
      List.length (pages_before_empty pages) < steps ->
      Http.outcome (Endpoints.listJobs (scripted pages) steps token id)
      = Js.Returned (map Endpoints.job (concat (pages_before_empty pages))))
  /\ (forall fetch req,
      nth_error
        (Http.sent (Endpoints.getEnvVarsForService fetch steps token id)) 0
      = Some req ->
      Http.req_url req
      = Index.RENDER_API ++ "/services/" ++ id ++ "/env-vars?limit=100")
  /\ (forall fetch req,
      nth_error (Http.sent (Endpoints.listJobs fetch steps token id)) 0
      = Some req ->
      Http.req_url req
      = Index.RENDER_API ++ "/services/" ++ id ++ "/jobs?limit=100")
  /\ (forall fetch e,
      Http.outcome
        (Index.renderGetPaged fetch token ("services/" ++ id ++ "/env-vars")
                              steps [])
      = Js.Threw e ->
      Http.outcome (Endpoints.getEnvVarsForService fetch steps token id)
      = Js.Threw e)
  /\ (forall fetch e,
      Http.outcome
        (Index.renderGetPaged fetch token ("services/" ++ id ++ "/jobs")
                              steps [])
      = Js.Threw e ->
      Http.outcome (Endpoints.listJobs fetch steps token id) = Js.Threw e).
Proof.
  repeat apply conj.
  - intros pages Hlt.
    unfold Endpoints.getEnvVarsForService, Endpoints.andThen.
    cbn [Http.outcome].
    now rewrite (proj1 (renderGetPaged_scripted pages token _ steps [] Hlt)).
  - intros pages Hlt. unfold Endpoints.listJobs, Endpoints.andThen.
    cbn [Http.outcome].
    now rewrite (proj1 (renderGetPaged_scripted pages token _ steps [] Hlt)).
  - intros fetch req Hreq.
    unfold Endpoints.getEnvVarsForService, Endpoints.andThen in Hreq.
    cbn [Http.sent] in Hreq. rewrite (first_paged_url _ _ _ _ _ Hreq).
    unfold Index.RENDER_API. cbn [append]. do 34 f_equal.
    now rewrite !append_assoc.
  - intros fetch req Hreq.
    unfold Endpoints.listJobs, Endpoints.andThen in Hreq.
    cbn [Http.sent] in Hreq. rewrite (first_paged_url _ _ _ _ _ Hreq).
    unfold Index.RENDER_API. cbn [append]. do 34 f_equal.
    now rewrite !append_assoc.
  - intros fetch e He.
    unfold Endpoints.getEnvVarsForService, Endpoints.andThen.
    cbn [Http.outcome]. now rewrite He.
  - intros fetch e He. unfold Endpoints.listJobs, Endpoints.andThen.
    cbn [Http.outcome]. now rewrite He.
Qed.

Lemma paged_wrappers_unwrap_witness :
  let var k v c :=
    Endpoints.mkEnvVarCursor c (Endpoints.mkEnvVar k v) in
  Http.outcome
    (Endpoints.getEnvVarsForService
       (scripted [[var "PORT" "8080" "c1"; var "HOST" "::" "c2"];
                  [var "TZ" "UTC" "c3"]])
       5 "key" "srv-abc")
  = Js.Returned
      (map Endpoints.envVar
           (concat (pages_before_empty
                      [[var "PORT" "8080" "c1"; var "HOST" "::" "c2"];
                       [var "TZ" "UTC" "c3"]]))).
Proof.
  intros var.
  apply (proj1 (paged_wrappers_unwrap "key" "srv-abc" 5)).
  repeat constructor.
Defined.

(** X19: [getRegistryCredentials] sends one request, to
    [registrycredentials?limit=100], and reads no further page whatever the
    answer holds; a response that is not [ok] gives the request error;
    otherwise it returns the credentials of the answer, all of them without
    a filter and those whose name matches with a valid pattern, in the
    order of the answer. *)
Theorem getRegistryCredentials_single_request
        (regexp : string -> option (string -> bool))
        (fetch : Http.Request
                 -> Http.Response (list Endpoints.RegistryCredential))
        (token pattern : string) :
  let r := Endpoints.getRegistryCredentials regexp fetch token pattern in
  let req :=
    Http.mkRequest "GET"
      "https://api.render.com/v1/registrycredentials?limit=100"
      (Index.make_headers token) None in
  Http.sent r = [req]
  /\ (Http.ok (fetch req) = false ->
      Http.outcome r
      = Js.Threw (Js.Error
          (Index.request_error "Unable to fetch data from render "
             (Http.statusText (fetch req)) (Http.req_url req) token
             (Http.text (fetch req)))))
  /\ (Http.ok (fetch req) = true ->
      Http.outcome
        (Endpoints.getRegistryCredentials regexp fetch token "")
      = Js.Returned (Http.json (fetch req)))
  /\ (forall test,
        Http.ok (fetch req) = true ->
        pattern <> "" ->
        regexp pattern = Some test ->
        Http.outcome r
        = Js.Returned (filter (fun c => test (Endpoints.rc_name c))
                              (Http.json (fetch req)))).
Proof.
  intros r req. unfold r, Endpoints.getRegistryCredentials, Endpoints.andThen.
  unfold Index.renderGet.
  change (Index.get_url "registrycredentials" []) with (Http.req_url req).
  change (Http.mkRequest "GET" (Http.req_url req) (Index.make_headers token)
                         None) with req.
  cbn [Http.sent Http.outcome]. repeat apply conj.
  - reflexivity.
  - now intros ->.
  - now intros ->.
  - intros test -> Hne Hp. cbn [negb].
    apply String.eqb_neq in Hne. rewrite Hne. cbn [negb].
    exact (filter_matching_valid regexp Endpoints.rc_name pattern test _ Hp).
Qed.

Lemma getRegistryCredentials_single_request_witness :
  let creds :=
    [Endpoints.mkRegistryCredential "rgc-1" "docker-hub" "DOCKER" "" "me";
     Endpoints.mkRegistryCredential "rgc-2" "ghcr" "GITHUB" "" "me"] in
  Http.outcome
    (Endpoints.getRegistryCredentials
       literal_regexp (fun _ => Http.mkResponse true "OK" "" creds)
       "key" "docker-")
  = Js.Returned
      (filter (fun c => Js.includes "docker-" (Endpoints.rc_name c)) creds).
Proof.
  intros creds.
  apply (proj2 (proj2 (proj2
           (getRegistryCredentials_single_request
              literal_regexp (fun _ => Http.mkResponse true "OK" "" creds)
              "key" "docker-")))).
  - reflexivity.
  - discriminate.
  - reflexivity.
Defined.

(** X20: [getEnvGroups] filters on the client as [getServices] does: it
    sends the requests of the plain listing of [env-groups], returns every
    listed group without a filter and the groups whose name matches with a
    valid pattern, and throws a [SyntaxError] for an invalid pattern once a
    group is listed. *)
Theorem getEnvGroups_filters_client_side
        (regexp : string -> option (string -> bool))
        (fetch : nat -> Http.Request
                 -> Http.Response (list Endpoints.EnvGroupCursor))
        (steps : nat) (token nameFilter : string) :
  let listing := Index.renderGetPaged fetch token "env-groups" steps [] in
  let r := Endpoints.getEnvGroups regexp fetch steps token nameFilter in
  Http.sent r = Http.sent listing
  /\ (forall req, nth_error (Http.sent r) 0 = Some req ->
        Http.req_url req = "https://api.render.com/v1/env-groups?limit=100")
  /\ (forall objs,
        Http.outcome listing = Js.Returned objs ->
        Http.outcome (Endpoints.getEnvGroups regexp fetch steps token "")
        = Js.Returned (map Endpoints.envGroup objs))
  /\ (forall objs test,
        Http.outcome listing = Js.Returned objs ->
        nameFilter <> "" ->
        regexp nameFilter = Some test ->
        Http.outcome r
        = Js.Returned (filter (fun g => test (Endpoints.eg_name g))
                              (map Endpoints.envGroup objs)))
  /\ (forall objs,
        Http.outcome listing = Js.Returned objs ->
        nameFilter <> "" ->
        regexp nameFilter = None ->
        objs <> [] ->
        Http.outcome r = Js.Threw (Js.SyntaxError nameFilter)).
Proof.
  intros listing r. unfold r, Endpoints.getEnvGroups, Endpoints.andThen.
  fold listing. cbn [Http.sent Http.outcome]. repeat apply conj.
  - reflexivity.
  - intros req Hreq. exact (first_paged_url _ _ _ _ _ Hreq).
  - intros objs Hl. now rewrite Hl.
  - intros objs test Hl Hne Hp. rewrite Hl.
    apply String.eqb_neq in Hne. rewrite Hne. cbn [negb].
    exact (filter_matching_valid regexp Endpoints.eg_name nameFilter test _
                                 Hp).
  - intros objs Hl Hne Hp Hobjs. rewrite Hl.
    apply String.eqb_neq in Hne. rewrite Hne. cbn [negb].
    unfold Endpoints.filter_matching. rewrite Hp.
    destruct objs; [contradiction | reflexivity].
Qed.

Lemma getEnvGroups_filters_client_side_witness :
  let group c n :=
    Endpoints.mkEnvGroupCursor c (Endpoints.mkEnvGroup ("evg-" ++ c) n "usr") in
  Http.outcome
    (Endpoints.getEnvGroups literal_regexp
       (scripted [[group "c1" "prod-secrets"; group "c2" "staging"]])
       2 "key" "prod-")
  = Js.Returned
      (filter (fun g => Js.includes "prod-" (Endpoints.eg_name g))
              (map Endpoints.envGroup
                   [group "c1" "prod-secrets"; group "c2" "staging"])).
Proof.
  intros group.
  apply (proj1 (proj2 (proj2 (proj2
           (getEnvGroups_filters_client_side
              literal_regexp
              (scripted [[group "c1" "prod-secrets"; group "c2" "staging"]])
              2 "key" "prod-"))))).
  - reflexivity.
  - discriminate.
  - reflexivity.
Defined.

(** X21: the two fetches by id send one request each, with [limit=100] as
    its only parameter; [getService] builds its path with a leading slash,
    so its URL has an empty segment after the API origin
    ([v1//services/<id>]), where [getEnvGroup] has none
    ([v1/env-groups/<id>]). *)
Theorem by_id_urls (token id : string) :
  (forall fetch,
      map Http.req_url (Http.sent (Index.getService fetch token id))
      = ["https://api.render.com/v1//services/" ++ id ++ "?limit=100"])
  /\ (forall fetch,
      map Http.req_url (Http.sent (Endpoints.getEnvGroup fetch token id))
      = ["https://api.render.com/v1/env-groups/" ++ id ++ "?limit=100"]).
Proof.
  split; intros fetch; cbn [Http.sent map Index.getService
                            Endpoints.getEnvGroup Index.renderGet
                            Http.req_url];
    unfold Index.get_url, Index.RENDER_API; f_equal;
    change (URLSearchParams.toString (Index.get_searchParams []))
      with "limit=100";
    cbn [append]; repeat f_equal; now rewrite !append_assoc.
Qed.

(** ** The request error of the earlier copy *)

(** X22: in [src/unnamed/part_001], a [renderGet] that receives a response
    that is not [ok] throws an error whose message is the status text, the
    value of [process.env.RENDER_API_KEY] printed whole (the word
    [undefined] when the variable is not set), and the body text; neither
    the token passed to the call nor the URL takes part in it. *)
Theorem part001_request_error_prints_env_key {T : Type}
        (env_RENDER_API_KEY : Js.Val)
        (fetch : Http.Request -> Http.Response T)
        (token method : string) (params : Js.Obj) :
  let r := Part001.renderGet env_RENDER_API_KEY fetch token method params in
  exists req,
    Http.sent r = [req]
    /\ (Http.ok (fetch req) = false ->
        exists message,
          Http.outcome r = Js.Threw (Js.Error message)
          /\ message
             = "Unable to fetch data from render "
                 ++ Http.statusText (fetch req) ++ " "
                 ++ Js.toString env_RENDER_API_KEY ++ ":" ++ Js.nl
                 ++ Http.text (fetch req)
          /\ Contains (Js.toString env_RENDER_API_KEY) message
          /\ Contains (Http.statusText (fetch req)) message
          /\ Contains (Http.text (fetch req)) message)
    /\ (env_RENDER_API_KEY = Js.Undefined ->
        Js.toString env_RENDER_API_KEY = "undefined").
Proof.
  intros r. eexists. split; [reflexivity|]. split.
  - intros Hok. eexists. unfold r, Part001.renderGet.
    cbn [Http.outcome]. rewrite Hok. cbn [negb].
    split; [reflexivity|]. split; [reflexivity|].
    unfold Part001.request_error. repeat split.
    + do 3 apply Contains_append_r. apply Contains_head.
    + apply Contains_append_r, Contains_head.
    + do 6 apply Contains_append_r. apply Contains_refl.
  - now intros ->.
Qed.

Lemma part001_request_error_prints_env_key_witness :
  exists message,
    Http.outcome
      (Part001.renderGet (Js.Str "rnd_0123456789abcdef")
         (fun _ => Http.mkResponse false "Unauthorized" "invalid api key" tt)
         "" "services" [])
    = Js.Threw (Js.Error message)
    /\ message
       = "Unable to fetch data from render " ++ "Unauthorized" ++ " "
           ++ "rnd_0123456789abcdef" ++ ":" ++ Js.nl ++ "invalid api key"
    /\ Contains "rnd_0123456789abcdef" message
    /\ Contains "Unauthorized" message
    /\ Contains "invalid api key" message.
Proof.
  destruct (part001_request_error_prints_env_key
              (Js.Str "rnd_0123456789abcdef")
              (fun _ => Http.mkResponse false "Unauthorized"
                          "invalid api key" tt)
              "" "services" []) as (req & Hsent & Hthrow & _).
  injection Hsent as <-. exact (Hthrow eq_refl).
Defined.
